(** * WS.py: the [AdvancedScraper] breadth-first crawler

    A shallow embedding of [src/WS.py].  The scraper object is a record,
    the methods are functions that pass the object and an event trace
    explicitly, and everything the program obtains from outside (the
    network, the clock, the HTML and URL libraries) is a field of the
    [Platform] class, so that every theorem holds for all of them. *)

From Stdlib Require Import ZArith QArith.QArith_base String Ascii List Lia.
From stdpp Require Import base gmap sets list strings.

Local Open Scope string_scope.
Local Open Scope list_scope.

(** ** Python strings *)

Module Py.

(** [str.isspace] on the ASCII range: TAB..CR, FS..US and the space. *)
Definition isspace (c : ascii) : bool :=
  let n := nat_of_ascii c in
  ((9 <=? n)%nat && (n <=? 13)%nat) || ((28 <=? n)%nat && (n <=? 32)%nat).

Fixpoint lstrip_chars (l : list ascii) : list ascii :=
  match l with
  | c :: l' => if isspace c then lstrip_chars l' else l
  | [] => []
  end.

(** [s.strip()] *)
Definition strip (s : string) : string :=
  string_of_list_ascii
    (rev (lstrip_chars (rev (lstrip_chars (list_ascii_of_string s))))).

(** [s.endswith(suffix)] *)
Definition endswith (s suffix : string) : bool :=
  let n := String.length s in
  let k := String.length suffix in
  (k <=? n)%nat && String.eqb (substring (n - k) k s) suffix.

(** [s.endswith((t1, t2, ...))]: true when some member is a suffix. *)
Definition endswith_any (s : string) (suffixes : list string) : bool :=
  existsb (endswith s) suffixes.

(** Truth value of a string: the empty string is false. *)
Definition truthy (s : string) : bool := negb (String.eqb s "").

(** Truth value of a value that is a string or [None]. *)
Definition truthy_opt (o : option string) : bool :=
  match o with
  | Some s => truthy s
  | None => false
  end.

(** [sum(...)] over lengths: a left fold from 0. *)
Definition sum (l : list nat) : nat := fold_left Nat.add l 0%nat.

(** [min(...)] of strings: the first least element; [None] stands for
    the [ValueError] raised on an empty iterable. *)
Definition min (l : list string) : option string :=
  match l with
  | [] => None
  | x :: xs => Some (fold_left (fun m y => if String.ltb y m then y else m) xs x)
  end.

(** [max(...)] of strings: the first greatest element. *)
Definition max (l : list string) : option string :=
  match l with
  | [] => None
  | x :: xs => Some (fold_left (fun m y => if String.ltb m y then y else m) xs x)
  end.

End Py.

(** ** Data produced by [parse_page] *)

Record Link := { link_text : string; link_url : string }.

Record InputTag := {
  input_name : option string;
  input_type : option string;
  input_id : option string }.

Record Form := {
  form_action : option string;
  form_method : option string;
  form_inputs : list InputTag }.

(** The dictionary [page_data]. *)
Record PageData := {
  pd_url : string;
  pd_timestamp : string;
  pd_title : option string;
  pd_links : list Link;
  pd_emails : list string;
  pd_phones : list string;
  pd_forms : list Form;
  pd_metadata : gmap string string }.

(** What [parse_page] returns: the empty list [[]] on a false [html],
    the dictionary otherwise. *)
Inductive ParseResult :=
  | PyEmptyList
  | PyDict (d : PageData).

(** ** What the libraries give *)

(** The tags [BeautifulSoup] finds, with the attributes the program reads. *)
Record Anchor := { a_href : option string; a_text : string }.

Record MetaTag := {
  meta_name : option string;
  meta_property : option string;
  meta_content : option string }.

Record Soup := {
  soup_title : option (option string);   (* [soup.title], then its [.string] *)
  soup_a : list Anchor;                  (* [soup.find_all('a')] *)
  soup_form : list Form;                 (* [soup.find_all('form')] with their inputs *)
  soup_meta : list MetaTag }.            (* [soup.find_all('meta')] *)

(** [urllib.parse.urlparse]'s six components. *)
Record UrlParts := {
  scheme : string;
  netloc : string;
  path : string;
  params : string;
  query : string;
  fragment : string }.

(** Outcome of the body of [fetch_page]'s [try]: a response with its
    status and text, or any exception (timeout, connection, payload). *)
Inductive Outcome :=
  | Response (status : Z) (text : string)
  | Raised (detail : string).

Class Platform := {
  BeautifulSoup : string -> Soup;
  urljoin : string -> string -> string;
  urlparse : string -> UrlParts;
  re_findall : string -> string -> list string;
  (** the network: session (proxy), logical time, URL *)
  session_get : option string -> nat -> string -> Outcome;
  (** [datetime.now().isoformat()] at a logical time *)
  now_isoformat : nat -> string;
  (** [datetime.now().strftime("%Y%m%d_%H%M%S")] at a logical time *)
  now_strftime : nat -> string }.

(** ** Events *)

Inductive LogRecord :=
  | InfoCrawling (url : string)
  | WarningFailed (url : string) (status : Z)
  | ErrorFetching (url : string) (detail : string).

Record Summary := {
  pages_scraped : nat;
  total_links : nat;
  total_emails : nat;
  total_phones : nat;
  total_forms : nat;
  start_time : string;
  end_time : string }.

Inductive Artifact :=
  | JsonDump (records : list PageData)
  | CsvTable (records : list PageData)
  | JsonSummary (summary : Summary).

(** What the program does to the outside, in order.  The length of the
    trace is the logical time at which the clock and the network are read. *)
Inductive Event :=
  | EvGet (session : option string) (url : string)
  | EvLog (r : LogRecord)
  | EvSleep (seconds : Q)
  | EvWrite (filename : string) (content : Artifact).

Definition is_get (e : Event) : option string :=
  match e with
  | EvGet _ url => Some url
  | _ => None
  end.

(** The URLs requested, in order. *)
Definition fetches (tr : list Event) : list string := omap is_get tr.

Definition is_sleep (e : Event) : bool :=
  match e with
  | EvSleep _ => true
  | _ => false
  end.

Definition sleeps (tr : list Event) : nat := List.length (filter (fun e => is_sleep e = true) tr).

Definition is_write (e : Event) : option (string * Artifact) :=
  match e with
  | EvWrite f c => Some (f, c)
  | _ => None
  end.

(** The files written, in order. *)
Definition written (tr : list Event) : list (string * Artifact) := omap is_write tr.

(** ** The scraper object *)

Record AdvancedScraper := {
  base_url : string;
  delay : Q;
  visited : gset string;
  data : list PageData;
  proxies : list string;
  current_proxy : nat }.

Definition set_visited (v : gset string) (self : AdvancedScraper) : AdvancedScraper :=
  {| base_url := base_url self; delay := delay self; visited := v;
     data := data self; proxies := proxies self;
     current_proxy := current_proxy self |}.

Definition set_data (d : list PageData) (self : AdvancedScraper) : AdvancedScraper :=
  {| base_url := base_url self; delay := delay self; visited := visited self;
     data := d; proxies := proxies self;
     current_proxy := current_proxy self |}.

Definition set_current_proxy (c : nat) (self : AdvancedScraper) : AdvancedScraper :=
  {| base_url := base_url self; delay := delay self; visited := visited self;
     data := data self; proxies := proxies self;
     current_proxy := c |}.

(** [load_proxies]: the lines of [proxies.txt], stripped, the empty ones
    dropped; [None] is the missing file. *)
Definition load_proxies (proxies_txt : option (list string)) : list string :=
  match proxies_txt with
  | Some lines => map Py.strip (filter (fun line => Py.truthy (Py.strip line) = true) lines)
  | None => []
  end.

(** [__init__] *)
Definition init (url : string) (d : Q) (proxies_txt : option (list string)) : AdvancedScraper :=
  {| base_url := url; delay := d; visited := ∅; data := [];
     proxies := load_proxies proxies_txt; current_proxy := 0 |}.

(** [rotate_proxy]: the value returned and the object afterwards. *)
Definition rotate_proxy (self : AdvancedScraper) : option string * AdvancedScraper :=
  match proxies self with
  | [] => (None, self)
  | _ :: _ =>
      let c := ((current_proxy self + 1) mod List.length (proxies self))%nat in
      (proxies self !! c, set_current_proxy c self)
  end.

(** [k] calls of [rotate_proxy] in a row: the values returned, first
    call first, and the object afterwards. *)
Fixpoint rotate_proxy_n (k : nat) (self : AdvancedScraper) : list (option string) * AdvancedScraper :=
  match k with
  | O => ([], self)
  | S k' =>
      let '(p, self1) := rotate_proxy self in
      let '(ps, self2) := rotate_proxy_n k' self1 in
      (p :: ps, self2)
  end.

(** ** Exceptions *)

Inductive Exception :=
  | IndexError     (* [pop] from an empty list *)
  | TypeError      (* subscripting a list with a string *)
  | ValueError.    (* [min] or [max] of an empty iterable *)

Inductive Result (A : Type) :=
  | Return (a : A)
  | Raise (e : Exception).

Arguments Return {A} a.
Arguments Raise {A} e.

(** The state of the [while] loop of [crawl]: the object, the local
    [queue], and the events so far. *)
Record Loop := {
  scraper : AdvancedScraper;
  queue : list string;
  trace : list Event }.

Section Methods.
Context `{Platform}.

(** [fetch_page]: one [session.get]; the text on status 200, [None]
    with a warning on any other status, [None] with an error record
    when anything was raised. *)
Definition fetch_page (self : AdvancedScraper) (url : string) (session : option string)
    (tr : list Event) : option string * list Event :=
  let tr1 := tr ++ [EvGet session url] in
  match session_get session (List.length tr) url with
  | Response status text =>
      if (status =? 200)%Z then (Some text, tr1)
      else (None, tr1 ++ [EvLog (WarningFailed url status)])
  | Raised e => (None, tr1 ++ [EvLog (ErrorFetching url e)])
  end.

Definition email_pattern : string := "[a-zA-Z0-9._%+-]+@[a-zA-Z0-9.-]+\.[a-zA-Z]{2,}".
Definition phone_pattern : string := "\b\d{3}[-.]?\d{3}[-.]?\d{4}\b".

(** The loop over [soup.find_all('a')]. *)
Definition extract_links (url : string) (anchors : list Anchor) : list Link :=
  omap (fun link =>
          match a_href link with
          | Some href =>
              if Py.truthy href
              then Some {| link_text := Py.strip (a_text link); link_url := urljoin url href |}
              else None
          | None => None
          end) anchors.

(** The loop over [soup.find_all('meta')]. *)
Definition extract_metadata (metas : list MetaTag) : gmap string string :=
  fold_left (fun md meta =>
               let name := match meta_name meta with
                           | Some n => n
                           | None => default "" (meta_property meta)
                           end in
               let content := default "" (meta_content meta) in
               if Py.truthy name && Py.truthy content then <[name := content]> md else md)
            metas ∅.

(** [parse_page] at logical time [t].  [list(set(...))] keeps one copy
    of each match, in an order Python does not fix. *)
Definition parse_page (self : AdvancedScraper) (html : option string) (url : string)
    (t : nat) : ParseResult :=
  match html with
  | None => PyEmptyList
  | Some html =>
      if negb (Py.truthy html) then PyEmptyList
      else
        let soup := BeautifulSoup html in
        PyDict {| pd_url := url;
                  pd_timestamp := now_isoformat t;
                  pd_title := match soup_title soup with
                              | Some title => title
                              | None => None
                              end;
                  pd_links := extract_links url (soup_a soup);
                  pd_emails := remove_dups (re_findall email_pattern html);
                  pd_phones := remove_dups (re_findall phone_pattern html);
                  pd_forms := soup_form soup;
                  pd_metadata := extract_metadata (soup_meta soup) |}
  end.

Definition skipped_extensions : list string := [".pdf"; ".jpg"; ".png"; ".gif"].

(** [should_crawl] *)
Definition should_crawl (self : AdvancedScraper) (url : string) : bool :=
  let parsed := urlparse url in
  let base_parsed := urlparse (base_url self) in
  String.eqb (netloc parsed) (netloc base_parsed)
  && negb (bool_decide (url ∈ visited self))
  && negb (Py.endswith_any url skipped_extensions).

(** The condition of the [while]. *)
Definition loop_cond (max_pages : option Z) (st : Loop) : bool :=
  match queue st with
  | [] => false
  | _ :: _ =>
      match max_pages with
      | None => true
      | Some n => (Z.of_nat (size (visited (scraper st))) <? n)%Z
      end
  end.

(** The body of the [while]: lines 137 to 155. *)
Definition loop_body (session : option string) (st : Loop) : Result Loop :=
  match queue st with
  | [] => Raise IndexError
  | current_url :: rest =>
      if bool_decide (current_url ∈ visited (scraper st)) then
        Return {| scraper := scraper st; queue := rest; trace := trace st |}
      else
        let self1 := set_visited ({[current_url]} ∪ visited (scraper st)) (scraper st) in
        let tr1 := trace st ++ [EvLog (InfoCrawling current_url)] in
        let '(html, tr2) := fetch_page self1 current_url session tr1 in
        if Py.truthy_opt html then
          match parse_page self1 html current_url (List.length tr2) with
          | PyDict page_data =>
              let self2 := set_data (data self1 ++ [page_data]) self1 in
              let found := filter (fun u => should_crawl self2 u = true)
                                  (map link_url (pd_links page_data)) in
              Return {| scraper := self2; queue := rest ++ found;
                        trace := tr2 ++ [EvSleep (delay self2)] |}
          | PyEmptyList => Raise TypeError
          end
        else
          Return {| scraper := self1; queue := rest;
                    trace := tr2 ++ [EvSleep (delay self1)] |}
  end.

(** The [while] with a bound on the number of iterations; [None] when
    the bound is reached before the loop ends. *)
Fixpoint while_loop (fuel : nat) (max_pages : option Z) (session : option string)
    (st : Loop) : option (Result Loop) :=
  if loop_cond max_pages st then
    match fuel with
    | O => None
    | S fuel' =>
        match loop_body session st with
        | Return st' => while_loop fuel' max_pages session st'
        | Raise e => Some (Raise e)
        end
    end
  else Some (Return st).

(** The state after at most [n] iterations of the [while]. *)
Fixpoint iterate (n : nat) (max_pages : option Z) (session : option string)
    (st : Loop) : Loop :=
  match n with
  | O => st
  | S n' =>
      if loop_cond max_pages st then
        match loop_body session st with
        | Return st' => iterate n' max_pages session st'
        | Raise _ => st
        end
      else st
  end.

(** Line 132: the connector, and the object after the rotation. *)
Definition connector (self : AdvancedScraper) : option string * AdvancedScraper :=
  match proxies self with
  | [] => (None, self)
  | _ :: _ => rotate_proxy self
  end.

(** The state in which the [while] is entered. *)
Definition crawl_start (self : AdvancedScraper) (tr : list Event) : Loop :=
  {| scraper := snd (connector self); queue := [base_url self]; trace := tr |}.

(** [crawl] *)
Definition crawl (fuel : nat) (self : AdvancedScraper) (max_pages : option Z)
    (tr : list Event) : option (Result Loop) :=
  while_loop fuel max_pages (fst (connector self)) (crawl_start self tr).

(** The state of [crawl] after at most [n] iterations. *)
Definition crawl_upto (n : nat) (self : AdvancedScraper) (max_pages : option Z)
    (tr : list Event) : Loop :=
  iterate n max_pages (fst (connector self)) (crawl_start self tr).

(** [export_data]: what it returns or raises, and the trace afterwards. *)
Definition export_data (self : AdvancedScraper) (tr : list Event) : Result unit * list Event :=
  let timestamp := now_strftime (List.length tr) in
  let tr1 := tr ++ [EvWrite ("scraping_results_" +:+ timestamp +:+ ".json") (JsonDump (data self))] in
  let tr2 := tr1 ++ [EvWrite ("scraping_results_" +:+ timestamp +:+ ".csv") (CsvTable (data self))] in
  let pages := size (visited self) in
  let links := Py.sum (map (fun d => List.length (pd_links d)) (data self)) in
  let emails := Py.sum (map (fun d => List.length (pd_emails d)) (data self)) in
  let phones := Py.sum (map (fun d => List.length (pd_phones d)) (data self)) in
  let forms := Py.sum (map (fun d => List.length (pd_forms d)) (data self)) in
  match Py.min (map pd_timestamp (data self)) with
  | None => (Raise ValueError, tr2)
  | Some earliest =>
      match Py.max (map pd_timestamp (data self)) with
      | None => (Raise ValueError, tr2)
      | Some latest =>
          let summary := {| pages_scraped := pages; total_links := links;
                            total_emails := emails; total_phones := phones;
                            total_forms := forms;
                            start_time := earliest; end_time := latest |} in
          (Return tt,
           tr2 ++ [EvWrite ("scraping_summary_" +:+ timestamp +:+ ".json") (JsonSummary summary)])
      end
  end.

(** [main] after argument parsing: [None] when the crawl does not end
    within [fuel] iterations. *)
Definition main (fuel : nat) (url : string) (d : Q) (max_pages : option Z)
    (proxies_txt : option (list string)) : option (Result unit * list Event) :=
  match crawl fuel (init url d proxies_txt) max_pages [] with
  | None => None
  | Some (Raise e) => Some (Raise e, [])
  | Some (Return st) => Some (export_data (scraper st) (trace st))
  end.

End Methods.

(** ** A model of [urllib.parse.urlparse]

    The splitting of a URL into scheme, network location, path,
    parameters, query and fragment, as the standard library does it.
    Left out: the removal of control characters and the validation of
    bracketed hosts.  Only the concrete examples use it; the theorems
    hold for every [urlparse]. *)

Module UrlModel.

(** The prefix before the first character satisfying [p], and the rest
    from that character on. *)
Fixpoint break (p : ascii -> bool) (s : string) : string * string :=
  match s with
  | EmptyString => ("", "")
  | String c s' =>
      if p c then ("", s)
      else let '(a, b) := break p s' in (String c a, b)
  end.

Definition is_char (c d : ascii) : bool := Ascii.eqb c d.

Definition isalpha (c : ascii) : bool :=
  let n := nat_of_ascii c in
  ((65 <=? n)%nat && (n <=? 90)%nat) || ((97 <=? n)%nat && (n <=? 122)%nat).

Definition isdigit (c : ascii) : bool :=
  let n := nat_of_ascii c in (48 <=? n)%nat && (n <=? 57)%nat.

(** [scheme_chars]: letters, digits, and [+-.] *)
Definition scheme_char (c : ascii) : bool :=
  isalpha c || isdigit c || is_char c "+" || is_char c "-" || is_char c ".".

Definition lower_char (c : ascii) : ascii :=
  let n := nat_of_ascii c in
  if (65 <=? n)%nat && (n <=? 90)%nat then ascii_of_nat (n + 32) else c.

Fixpoint lower (s : string) : string :=
  match s with
  | EmptyString => ""
  | String c s' => String (lower_char c) (lower s')
  end.

Fixpoint all_chars (p : ascii -> bool) (s : string) : bool :=
  match s with
  | EmptyString => true
  | String c s' => p c && all_chars p s'
  end.

Definition tail (s : string) : string :=
  match s with
  | EmptyString => ""
  | String _ s' => s'
  end.

(** The scheme, when the text before the first colon is one. *)
Definition split_scheme (url : string) : string * string :=
  let '(pre, rest) := break (is_char ":") url in
  match pre, rest with
  | String c _, String _ after =>
      if isalpha c && all_chars scheme_char pre then (lower pre, after) else ("", url)
  | _, _ => ("", url)
  end.

(** The network location: after a leading [//], up to the first of [/?#]. *)
Definition split_netloc (url : string) : string * string :=
  match url with
  | String "/" (String "/" rest) =>
      break (fun c => is_char c "/" || is_char c "?" || is_char c "#") rest
  | _ => ("", url)
  end.

(** [url.split(sep, 1)] when [sep] occurs, else the whole and the empty string. *)
Definition split_once (sep : ascii) (url : string) : string * string :=
  let '(a, b) := break (is_char sep) url in (a, tail b).

(** The part up to and with the last slash, and the last segment. *)
Fixpoint last_segment (s : string) : string * string :=
  match s with
  | EmptyString => ("", "")
  | String c s' =>
      let '(dir, seg) := last_segment s' in
      if is_char c "/" then
        match dir with
        | EmptyString => (String c "", s')
        | _ => (String c dir, seg)
        end
      else
        match dir with
        | EmptyString => ("", String c seg)
        | _ => (String c dir, seg)
        end
  end.

Definition uses_params : list string :=
  [""; "ftp"; "hdl"; "prospero"; "http"; "imap"; "https"; "shttp"; "rtsp";
   "rtspu"; "sip"; "sips"; "mms"; "sftp"; "tel"].

(** [_splitparams]: the parameters of the last path segment. *)
Definition split_params (url : string) : string * string :=
  let '(dir, seg) := last_segment url in
  let '(a, b) := break (is_char ";") seg in
  match b with
  | EmptyString => (url, "")
  | String _ p => (dir +:+ a, p)
  end.

Definition urlparse (url : string) : UrlParts :=
  let '(sch, url1) := split_scheme url in
  let '(loc, url2) := split_netloc url1 in
  let '(url3, frag) := split_once "#" url2 in
  let '(url4, qry) := split_once "?" url3 in
  let '(pth, prm) :=
    if existsb (String.eqb sch) uses_params then split_params url4 else (url4, "") in
  {| scheme := sch; netloc := loc; path := pth; params := prm;
     query := qry; fragment := frag |}.

End UrlModel.

(** ** A small web to run the crawler on *)

Module Example.

Definition seed : string := "http://example.test/".
Definition page_a : string := "http://example.test/a".
Definition page_b : string := "http://example.test/b".
Definition page_c : string := "http://other.test/c".
Definition report : string := "http://example.test/report.pdf".
Definition report_page2 : string := "http://example.test/report.pdf?page=2".
Definition query_pdf : string := "http://example.test/a?f=x.pdf".
Definition photo_upper : string := "http://example.test/photo.JPG".

Definition anchor (href : string) : Anchor := {| a_href := Some href; a_text := " link " |}.

Definition no_tags : Soup :=
  {| soup_title := None; soup_a := []; soup_form := []; soup_meta := [] |}.

(** The seed page links to [/a] twice, to [/b], to another host, to a
    PDF and to the second page of that PDF; [/b] links back to the seed,
    to [/a] and to that second page again. *)
Definition soup_of (html : string) : Soup :=
  if String.eqb html "<seed>" then
    {| soup_title := Some (Some "Seed");
       soup_a := [anchor page_a; anchor page_b; anchor page_c; anchor page_a;
                  anchor report; anchor report_page2;
                  {| a_href := None; a_text := "" |}];
       soup_form := [{| form_action := Some "/search"; form_method := None;
                        form_inputs := [{| input_name := Some "q"; input_type := Some "text";
                                           input_id := None |}] |}];
       soup_meta := [{| meta_name := Some "author"; meta_property := None;
                        meta_content := Some "me" |}] |}
  else if String.eqb html "<b>" then
    {| soup_title := None; soup_a := [anchor seed; anchor page_a; anchor report_page2];
       soup_form := []; soup_meta := [] |}
  else no_tags.

(** [/a] answers 404, [/b] and the seed answer 200, anything else
    cannot be reached. *)
Definition get (session : option string) (t : nat) (url : string) : Outcome :=
  if String.eqb url seed then Response 200 "<seed>"
  else if String.eqb url page_a then Response 404 "Not Found"
  else if String.eqb url page_b then Response 200 "<b>"
  else Raised "Cannot connect to host".

Definition digit (n : nat) : string := String (ascii_of_nat (48 + n mod 10)) "".

Definition isoformat (t : nat) : string :=
  "2024-01-01T00:00:" +:+ digit (t / 10) +:+ digit t.

Definition strftime (t : nat) : string :=
  "20240101_0000" +:+ digit (t / 10) +:+ digit t.

(** The pages only hold absolute links, and no e-mail or phone. *)
#[export] Instance web : Platform :=
  {| BeautifulSoup := soup_of;
     urljoin := fun _ href => href;
     urlparse := UrlModel.urlparse;
     re_findall := fun _ _ => [];
     session_get := get;
     now_isoformat := isoformat;
     now_strftime := strftime |}.

Definition two_proxies : option (list string) :=
  Some [" http://p1:8080 "; ""; "http://p2:8080"].

(** A new scraper on the seed, without proxies. *)
Definition fresh : AdvancedScraper := init seed 1%Q None.

(** The loop about to dequeue [/a], which answers 404. *)
Definition before_a : Loop :=
  {| scraper := set_visited {[seed]} fresh; queue := [page_a; page_b]; trace := [] |}.

(** The loop about to dequeue the seed a second time. *)
Definition seed_again : Loop :=
  {| scraper := set_visited {[seed]} fresh; queue := [seed; page_b]; trace := [] |}.


Definition record (url timestamp : string) (links : list Link) : PageData :=
  {| pd_url := url; pd_timestamp := timestamp; pd_title := None; pd_links := links;
     pd_emails := ["a@b.com"]; pd_phones := []; pd_forms := []; pd_metadata := ∅ |}.

(** A scraper that recorded two pages. *)
Definition two_pages : AdvancedScraper :=
  set_data [record seed "2024-01-01T00:00:07" [{| link_text := "a"; link_url := page_a |}];
            record page_b "2024-01-01T00:00:03" []]
           (set_visited {[seed; page_a; page_b]} fresh).

End Example.

(** ** Predicates on the state of the loop *)

(** No URL was requested twice, and every URL requested is in [visited]. *)
Definition fetched_once (st : Loop) : Prop :=
  NoDup (fetches (trace st)) ∧ ∀ u, u ∈ fetches (trace st) → u ∈ visited (scraper st).






(** [s] ends with [suffix]: some text followed by [suffix]. *)
Definition has_suffix (s suffix : string) : Prop := ∃ pre, s = pre +:+ suffix.

(** ** Further notions used in the statements *)

(** The name under which a [meta] tag is recorded: its [name] attribute
    when it has one, else its [property] attribute, else the empty string. *)
Definition meta_key (meta : MetaTag) : string :=
  match meta_name meta with
  | Some n => n
  | None => default "" (meta_property meta)
  end.


(** A web whose every page is empty and answers 200. *)
Module Blank.

#[export] Instance blank_web : Platform :=
  {| BeautifulSoup := fun _ => Example.no_tags;
     urljoin := fun _ href => href;
     urlparse := UrlModel.urlparse;
     re_findall := fun _ _ => [];
     session_get := fun _ _ _ => Response 200 "";
     now_isoformat := Example.isoformat;
     now_strftime := Example.strftime |}.

End Blank.

(** A web whose pages repeat an e-mail address and a phone number. *)
Module Contacts.

Definition findall (pattern html : string) : list string :=
  if String.eqb pattern email_pattern then ["a@b.com"; "c@d.org"; "a@b.com"]
  else ["555-123-4567"; "555-123-4567"].

#[export] Instance contacts_web : Platform :=
  {| BeautifulSoup := Example.soup_of;
     urljoin := fun _ href => href;
     urlparse := UrlModel.urlparse;
     re_findall := findall;
     session_get := Example.get;
     now_isoformat := Example.isoformat;
     now_strftime := Example.strftime |}.

End Contacts.

(** A web of one kind of page, with text but without anchors. *)
Module Leaf.

#[export] Instance leaf_web : Platform :=
  {| BeautifulSoup := fun _ => Example.no_tags;
     urljoin := fun _ href => href;
     urlparse := UrlModel.urlparse;
     re_findall := fun _ _ => [];
     session_get := fun _ _ _ => Response 200 "<leaf>";
     now_isoformat := Example.isoformat;
     now_strftime := Example.strftime |}.

End Leaf.

(** * Properties *)

(** ** Events of a trace *)

Lemma fetches_app (tr1 tr2 : list Event) :
  fetches (tr1 ++ tr2) = fetches tr1 ++ fetches tr2.
Proof. unfold fetches. apply omap_app. Qed.

Lemma sleeps_app (tr1 tr2 : list Event) :
  sleeps (tr1 ++ tr2) = (sleeps tr1 + sleeps tr2)%nat.
Proof. unfold sleeps. rewrite filter_app. apply length_app. Qed.

Lemma written_app (tr1 tr2 : list Event) :
  written (tr1 ++ tr2) = written tr1 ++ written tr2.
Proof. unfold written. apply omap_app. Qed.

Section Facts.
Context `{Platform}.

(** ** [fetch_page] *)

Lemma fetch_page_ok self url session tr body :
  session_get session (List.length tr) url = Response 200 body →
  fetch_page self url session tr = (Some body, tr ++ [EvGet session url]).
Proof. intros Hnet. unfold fetch_page. rewrite Hnet. reflexivity. Qed.

Lemma fetch_page_bad_status self url session tr status text :
  session_get session (List.length tr) url = Response status text →
  status ≠ 200%Z →
  fetch_page self url session tr
  = (None, tr ++ [EvGet session url] ++ [EvLog (WarningFailed url status)]).
Proof.
  intros Hnet Hst. unfold fetch_page. rewrite Hnet.
  destruct (Z.eqb_spec status 200) as [->|_]; [congruence|].
  by rewrite <- app_assoc.
Qed.

Lemma fetch_page_raised self url session tr e :
  session_get session (List.length tr) url = Raised e →
  fetch_page self url session tr
  = (None, tr ++ [EvGet session url] ++ [EvLog (ErrorFetching url e)]).
Proof.
  intros Hnet. unfold fetch_page. rewrite Hnet. by rewrite <- app_assoc.
Qed.

(** Each call issues one request and does not sleep. *)
Lemma fetch_page_trace self url session tr :
  ∃ logged, snd (fetch_page self url session tr) = tr ++ EvGet session url :: logged
            ∧ fetches logged = [] ∧ sleeps logged = 0%nat.
Proof.
  unfold fetch_page. destruct (session_get _ _ _) as [status text|e].
  - destruct (status =? 200)%Z; simpl.
    + by exists [].
    + exists [EvLog (WarningFailed url status)]. by rewrite <- app_assoc.
  - exists [EvLog (ErrorFetching url e)]. by rewrite <- app_assoc.
Qed.

Lemma fetch_page_fetches self url session tr :
  fetches (snd (fetch_page self url session tr)) = fetches tr ++ [url].
Proof.
  destruct (fetch_page_trace self url session tr) as (logged & -> & Hf & _).
  rewrite fetches_app. simpl. change (fetches (EvGet session url :: logged))
    with (url :: fetches logged). by rewrite Hf.
Qed.

(** ** [parse_page] *)

Lemma parse_page_truthy self html url t :
  Py.truthy_opt html = true → ∃ d, parse_page self html url t = PyDict d.
Proof.
  destruct html as [html|]; simpl; [|discriminate].
  intros ->. simpl. eauto.
Qed.


(** ** One iteration *)

Lemma loop_body_skip session st u rest :
  queue st = u :: rest →
  u ∈ visited (scraper st) →
  loop_body session st
  = Return {| scraper := scraper st; queue := rest; trace := trace st |}.
Proof.
  intros Hq Hin. unfold loop_body. rewrite Hq.
  by rewrite bool_decide_eq_true_2.
Qed.

(** The iteration on a new URL, in terms of the call of [fetch_page]:
    the object it is called on already has the URL in [visited]. *)
Lemma loop_body_fresh session st u rest :
  queue st = u :: rest →
  u ∉ visited (scraper st) →
  let self1 := set_visited ({[u]} ∪ visited (scraper st)) (scraper st) in
  let r := fetch_page self1 u session (trace st ++ [EvLog (InfoCrawling u)]) in
  loop_body session st
  = if Py.truthy_opt (fst r) then
      match parse_page self1 (fst r) u (List.length (snd r)) with
      | PyDict page_data =>
          let self2 := set_data (data self1 ++ [page_data]) self1 in
          Return {| scraper := self2;
                    queue := rest ++ filter (fun c => should_crawl self2 c = true)
                                            (map link_url (pd_links page_data));
                    trace := snd r ++ [EvSleep (delay self2)] |}
      | PyEmptyList => Raise TypeError
      end
    else Return {| scraper := self1; queue := rest;
                   trace := snd r ++ [EvSleep (delay self1)] |}.
Proof.
  intros Hq Hnin. unfold loop_body. rewrite Hq.
  rewrite bool_decide_eq_false_2 by done.
  cbv zeta. by destruct (fetch_page _ _ _ _) as [html tr2].
Qed.

(** What an iteration on a new URL leaves, whatever the fetch gave. *)
Lemma loop_body_fresh_spec session st u rest :
  queue st = u :: rest →
  u ∉ visited (scraper st) →
  ∃ st' found logged,
    loop_body session st = Return st'
    ∧ visited (scraper st') = {[u]} ∪ visited (scraper st)
    ∧ base_url (scraper st') = base_url (scraper st)
    ∧ queue st' = rest ++ found
    ∧ Forall (fun c => should_crawl (scraper st') c = true) found
    ∧ trace st' = trace st ++ [EvLog (InfoCrawling u)] ++ EvGet session u :: logged
    ∧ fetches logged = [] ∧ sleeps logged = 1%nat.
Proof.
  intros Hq Hnin. rewrite (loop_body_fresh session st u rest Hq Hnin). cbv zeta.
  destruct (fetch_page_trace
              (set_visited ({[u]} ∪ visited (scraper st)) (scraper st)) u session
              (trace st ++ [EvLog (InfoCrawling u)])) as (logged & Htr & Hf & Hs).
  destruct (Py.truthy_opt _) eqn:Hhtml.
  - destruct (parse_page_truthy
                (set_visited ({[u]} ∪ visited (scraper st)) (scraper st)) _ u
                (List.length (snd (fetch_page
                   (set_visited ({[u]} ∪ visited (scraper st)) (scraper st)) u session
                   (trace st ++ [EvLog (InfoCrawling u)])))) Hhtml) as [d ->].
    eexists _, _, (logged ++ [EvSleep _]). split; [reflexivity|]. simpl.
    repeat split; try done.
    + apply List.Forall_forall. intros c Hc.
      apply list_elem_of_In, list_elem_of_filter in Hc. tauto.
    + rewrite Htr. by rewrite <- !app_assoc.
    + rewrite fetches_app, Hf. done.
    + rewrite sleeps_app, Hs. done.
  - eexists _, [], (logged ++ [EvSleep _]). split; [reflexivity|]. simpl.
    repeat split; try done.
    + by rewrite app_nil_r.
    + rewrite Htr. by rewrite <- !app_assoc.
    + rewrite fetches_app, Hf. done.
    + rewrite sleeps_app, Hs. done.
Qed.

(** Under the loop condition the body raises nothing. *)
Lemma loop_body_returns max_pages session st :
  loop_cond max_pages st = true → ∃ st', loop_body session st = Return st'.
Proof.
  unfold loop_cond. destruct (queue st) as [|u rest] eqn:Hq; [discriminate|].
  intros _. destruct (decide (u ∈ visited (scraper st))) as [Hin|Hnin].
  - rewrite (loop_body_skip session st u rest Hq Hin). eauto.
  - destruct (loop_body_fresh_spec session st u rest Hq Hnin) as (st' & ? & ? & -> & _).
    eauto.
Qed.

(** ** Invariants of the loop *)

Lemma loop_body_visited session st st' :
  loop_body session st = Return st' →
  visited (scraper st') = visited (scraper st)
  ∨ (∃ u rest, queue st = u :: rest ∧ (u ∉ visited (scraper st))
               ∧ visited (scraper st') = {[u]} ∪ visited (scraper st)).
Proof.
  intros Hbody. destruct (queue st) as [|u rest] eqn:Hq.
  - unfold loop_body in Hbody. by rewrite Hq in Hbody.
  - destruct (decide (u ∈ visited (scraper st))) as [Hin|Hnin].
    + rewrite (loop_body_skip session st u rest Hq Hin) in Hbody.
      injection Hbody as <-. by left.
    + destruct (loop_body_fresh_spec session st u rest Hq Hnin)
        as (st1 & ? & ? & Hst1 & Hv & _).
      rewrite Hst1 in Hbody. injection Hbody as <-. right. eauto.
Qed.

Lemma loop_body_visited_mono session st st' :
  loop_body session st = Return st' → visited (scraper st) ⊆ visited (scraper st').
Proof.
  intros Hbody. destruct (loop_body_visited session st st' Hbody)
    as [->|(u & rest & _ & _ & ->)]; set_solver.
Qed.

Lemma loop_body_size session st st' (N : Z) :
  loop_cond (Some N) st = true →
  loop_body session st = Return st' →
  (Z.of_nat (size (visited (scraper st'))) <= N)%Z.
Proof.
  intros Hcond Hbody. unfold loop_cond in Hcond.
  destruct (queue st) as [|? ?]; [discriminate|].
  apply Z.ltb_lt in Hcond.
  destruct (loop_body_visited session st st' Hbody)
    as [->|(u & rest & _ & Hnin & ->)]; [lia|].
  rewrite size_union by set_solver. rewrite size_singleton. lia.
Qed.

Lemma loop_body_fetched_once session st st' :
  fetched_once st → loop_body session st = Return st' → fetched_once st'.
Proof.
  intros [Hnd Hsub] Hbody. destruct (queue st) as [|u rest] eqn:Hq.
  - unfold loop_body in Hbody. by rewrite Hq in Hbody.
  - destruct (decide (u ∈ visited (scraper st))) as [Hin|Hnin].
    + rewrite (loop_body_skip session st u rest Hq Hin) in Hbody.
      injection Hbody as <-. by split.
    + destruct (loop_body_fresh_spec session st u rest Hq Hnin)
        as (st1 & found & logged & Hst1 & Hv & _ & _ & _ & Htr & Hf & _).
      rewrite Hst1 in Hbody. injection Hbody as <-.
      assert (Hfs : fetches (trace st1) = fetches (trace st) ++ [u]).
      { rewrite Htr, !fetches_app. simpl.
        change (fetches (EvGet session u :: logged)) with (u :: fetches logged).
        by rewrite Hf. }
      unfold fetched_once. rewrite Hfs, Hv. split.
      * apply NoDup_app. split; [done|]. split; [|apply NoDup_singleton].
        intros x Hx Hxu. apply list_elem_of_singleton in Hxu as ->. auto.
      * intros x Hx. apply elem_of_app in Hx as [Hx|Hx].
        -- apply elem_of_union_r. auto.
        -- apply list_elem_of_singleton in Hx as ->.
           by apply elem_of_union_l, elem_of_singleton.
Qed.

(** A property kept by every iteration holds after any number of them. *)
Lemma iterate_invariant (P : Loop → Prop) max_pages session :
  (∀ st st', loop_cond max_pages st = true → P st →
             loop_body session st = Return st' → P st') →
  ∀ n st, P st → P (iterate n max_pages session st).
Proof.
  intros Hstep n. induction n as [|n IH]; intros st HP; simpl; [done|].
  destruct (loop_cond max_pages st) eqn:Hcond; [|done].
  destruct (loop_body session st) as [st'|e] eqn:Hbody; [|done].
  apply IH. eauto.
Qed.

(** When the bounded loop ends, it ends in the state [iterate] gives,
    with the condition false; it raises nothing. *)
Lemma while_loop_iterate fuel max_pages session st r :
  while_loop fuel max_pages session st = Some r →
  r = Return (iterate fuel max_pages session st)
  ∧ loop_cond max_pages (iterate fuel max_pages session st) = false.
Proof.
  revert st. induction fuel as [|fuel IH]; intros st; simpl.
  - destruct (loop_cond max_pages st) eqn:Hcond; [discriminate|].
    intros [= <-]. done.
  - destruct (loop_cond max_pages st) eqn:Hcond.
    + destruct (loop_body_returns max_pages session st Hcond) as [st' ->].
      apply IH.
    + intros [= <-]. done.
Qed.

(** One more iteration, when the condition holds. *)
Lemma while_loop_step fuel max_pages session st st' :
  loop_cond max_pages st = true →
  loop_body session st = Return st' →
  while_loop (S fuel) max_pages session st = while_loop fuel max_pages session st'.
Proof. intros Hcond Hbody. simpl. by rewrite Hcond, Hbody. Qed.

Lemma iterate_size (N : Z) session n st :
  (Z.of_nat (size (visited (scraper st))) <= N)%Z →
  (Z.of_nat (size (visited (scraper (iterate n (Some N) session st)))) <= N)%Z.
Proof.
  apply (iterate_invariant
           (fun st => (Z.of_nat (size (visited (scraper st))) <= N)%Z)).
  intros st1 st2 Hcond _ Hbody. by apply (loop_body_size session st1).
Qed.

Lemma iterate_fetched_once max_pages session n st :
  fetched_once st → fetched_once (iterate n max_pages session st).
Proof.
  apply (iterate_invariant fetched_once).
  intros st1 st2 _ Hinv Hbody. by apply (loop_body_fetched_once session st1).
Qed.

Lemma iterate_visited_mono max_pages session n st :
  visited (scraper st) ⊆ visited (scraper (iterate n max_pages session st)).
Proof.
  apply (iterate_invariant (fun st' => visited (scraper st) ⊆ visited (scraper st'))).
  - intros st1 st2 _ Hsub Hbody.
    pose proof (loop_body_visited_mono session st1 st2 Hbody). set_solver.
  - done.
Qed.

Lemma iterate_add n m max_pages session st :
  iterate (n + m) max_pages session st
  = iterate m max_pages session (iterate n max_pages session st).
Proof.
  revert st. induction n as [|n IH]; intros st; simpl; [done|].
  destruct (loop_cond max_pages st) eqn:Hcond.
  - destruct (loop_body session st) as [st'|e] eqn:Hbody; [apply IH|].
    destruct m; simpl; [done|]. by rewrite Hcond, Hbody.
  - destruct m; simpl; [done|]. by rewrite Hcond.
Qed.

Lemma crawl_start_init url d proxies_txt tr :
  visited (scraper (crawl_start (init url d proxies_txt) tr)) = ∅
  ∧ queue (crawl_start (init url d proxies_txt) tr) = [url]
  ∧ trace (crawl_start (init url d proxies_txt) tr) = tr.
Proof.
  unfold crawl_start, connector, rotate_proxy. simpl.
  destruct (load_proxies proxies_txt); simpl; done.
Qed.


(** ** The page ceiling *)

(** C1: for every N >= 0, a crawl with [max_pages = N] keeps the size of
    [visited] at most N after every iteration and when it ends; with
    N = 0 the loop ends at once, whatever the bound on iterations: no
    event happened (no fetch), the queue still holds the seed, and
    [visited] is empty. *)
Theorem max_pages_bounds_visited (N : Z) (url : string) (d : Q)
    (proxies_txt : option (list string)) :
  (0 <= N)%Z →
  (∀ n, (Z.of_nat (size (visited (scraper
           (crawl_upto n (init url d proxies_txt) (Some N) [])))) <= N)%Z)
  ∧ (∀ fuel r, crawl fuel (init url d proxies_txt) (Some N) [] = Some r →
       ∃ st, r = Return st ∧ (Z.of_nat (size (visited (scraper st))) <= N)%Z)
  ∧ (N = 0%Z → ∀ fuel, ∃ st,
       crawl fuel (init url d proxies_txt) (Some N) [] = Some (Return st)
       ∧ trace st = [] ∧ fetches (trace st) = []
       ∧ queue st = [url] ∧ visited (scraper st) = ∅).
Proof.
  intros HN.
  destruct (crawl_start_init url d proxies_txt []) as (Hv & Hq & Htr).
  assert (Hbound : ∀ n, (Z.of_nat (size (visited (scraper
             (crawl_upto n (init url d proxies_txt) (Some N) [])))) <= N)%Z).
  { intros n. unfold crawl_upto. apply iterate_size.
    rewrite Hv, size_empty. lia. }
  split; [exact Hbound|]. split.
  - intros fuel r Hr. unfold crawl in Hr.
    apply while_loop_iterate in Hr as [-> _].
    eexists. split; [reflexivity|]. apply Hbound.
  - intros -> fuel. exists (crawl_start (init url d proxies_txt) []).
    rewrite Htr, Hq, Hv. repeat split; try done.
    unfold crawl.
    assert (Hcond : loop_cond (Some 0%Z) (crawl_start (init url d proxies_txt) []) = false).
    { unfold loop_cond. rewrite Hq, Hv, size_empty. done. }
    destruct fuel; simpl; by rewrite Hcond.
Qed.

(** ** At most one fetch per URL *)

(** C2: in a crawl no URL is requested twice, and [visited] only grows.
    An iteration that dequeues a URL already in [visited] changes
    nothing but the queue: no request, no sleep.  An iteration that
    dequeues a new URL puts it in [visited] whatever the request gives,
    calls [fetch_page] on the object that already holds it, and issues
    exactly one request. *)
Theorem url_fetched_at_most_once (url : string) (d : Q)
    (proxies_txt : option (list string)) (max_pages : option Z) (session : option string) :
  (∀ n, NoDup (fetches (trace (crawl_upto n (init url d proxies_txt) max_pages []))))
  ∧ (∀ n m, visited (scraper (crawl_upto n (init url d proxies_txt) max_pages []))
            ⊆ visited (scraper (crawl_upto (n + m) (init url d proxies_txt) max_pages [])))
  ∧ (∀ st u rest, queue st = u :: rest → u ∈ visited (scraper st) →
       loop_body session st
       = Return {| scraper := scraper st; queue := rest; trace := trace st |})
  ∧ (∀ st u rest, queue st = u :: rest → u ∉ visited (scraper st) →
       let self1 := set_visited ({[u]} ∪ visited (scraper st)) (scraper st) in
       let r := fetch_page self1 u session (trace st ++ [EvLog (InfoCrawling u)]) in
       ∃ st', loop_body session st = Return st'
              ∧ u ∈ visited self1
              ∧ visited (scraper st') = visited self1
              ∧ trace st' = snd r ++ [EvSleep (delay (scraper st))]
              ∧ fetches (trace st') = fetches (trace st) ++ [u])
  ∧ (∀ st st', loop_body session st = Return st' →
       visited (scraper st) ⊆ visited (scraper st')).
Proof.
  destruct (crawl_start_init url d proxies_txt []) as (Hv & Hq & Htr).
  split; [|split; [|split; [|split]]].
  - intros n. unfold crawl_upto. apply iterate_fetched_once.
    split; rewrite Htr; [apply NoDup_nil_2|]. intros u Hu. inversion Hu.
  - intros n m. unfold crawl_upto. rewrite iterate_add. apply iterate_visited_mono.
  - intros st u rest. apply loop_body_skip.
  - intros st u rest Hq' Hnin self1 r.
    pose proof (loop_body_fresh session st u rest Hq' Hnin) as Hbody.
    cbv zeta in Hbody. fold self1 in Hbody. fold r in Hbody.
    assert (Hf : ∀ e, fetches (snd r ++ [EvSleep e]) = fetches (trace st) ++ [u]).
    { intros e. rewrite fetches_app. unfold r. rewrite fetch_page_fetches.
      rewrite fetches_app. simpl. by rewrite !app_nil_r. }
    assert (Hu : u ∈ visited self1) by (simpl; set_solver).
    destruct (Py.truthy_opt (fst r)) eqn:Hhtml.
    + destruct (parse_page_truthy self1 (fst r) u (List.length (snd r)) Hhtml) as [pd Hpd].
      rewrite Hpd in Hbody. eexists. split; [exact Hbody|]. simpl.
      split; [exact Hu|]. split; [done|]. split; [done|]. apply Hf.
    + eexists. split; [exact Hbody|]. simpl.
      split; [exact Hu|]. split; [done|]. split; [done|]. apply Hf.
  - intros st st'. apply loop_body_visited_mono.
Qed.

(** ** A failed fetch *)

(** C5: an iteration that dequeues a new URL whose request raises or
    answers another status than 200 leaves [data] as it was and the
    queue without its head only, keeps the URL in [visited], and the
    loop goes on from there with the rest of the queue. *)
Theorem failed_fetch_changes_nothing (session : option string) (st : Loop)
    (u : string) (rest : list string) :
  queue st = u :: rest →
  u ∉ visited (scraper st) →
  match session_get session (List.length (trace st ++ [EvLog (InfoCrawling u)])) u with
  | Response status _ => status ≠ 200%Z
  | Raised _ => True
  end →
  ∃ st', loop_body session st = Return st'
         ∧ data (scraper st') = data (scraper st)
         ∧ queue st' = rest
         ∧ u ∈ visited (scraper st')
         ∧ visited (scraper st') = {[u]} ∪ visited (scraper st)
         ∧ (∀ fuel max_pages, loop_cond max_pages st = true →
              while_loop (S fuel) max_pages session st
              = while_loop fuel max_pages session st').
Proof.
  intros Hq Hnin Hfail.
  pose proof (loop_body_fresh session st u rest Hq Hnin) as Hbody. cbv zeta in Hbody.
  assert (Hnone : fst (fetch_page (set_visited ({[u]} ∪ visited (scraper st)) (scraper st))
                         u session (trace st ++ [EvLog (InfoCrawling u)])) = None).
  { unfold fetch_page.
    destruct (session_get _ _ _) as [status text|e]; [|done].
    destruct (Z.eqb_spec status 200); [contradiction|done]. }
  rewrite Hnone in Hbody. simpl in Hbody.
  eexists. split; [exact Hbody|]. simpl. repeat split; try done.
  - set_solver.
  - intros fuel max_pages Hcond. by apply while_loop_step.
Qed.

(** ** Duplicates in the queue *)


(** ** Suffixes *)

Lemma substring_full (s : string) : substring 0 (String.length s) s = s.
Proof. induction s as [|c s IH]; simpl; [done|]. by rewrite IH. Qed.

Lemma string_length_app (a b : string) :
  String.length (a +:+ b) = (String.length a + String.length b)%nat.
Proof. induction a as [|c a IH]; simpl; [done|]. by rewrite IH. Qed.

Lemma substring_app_r (pre suf : string) :
  substring (String.length pre) (String.length suf) (pre +:+ suf) = suf.
Proof. induction pre as [|c pre IH]; simpl; [apply substring_full|exact IH]. Qed.

Lemma substring_split (s : string) (i : nat) :
  (i <= String.length s)%nat →
  s = substring 0 i s +:+ substring i (String.length s - i) s.
Proof.
  revert i. induction s as [|c s IH]; intros [|i] Hi; simpl in Hi; try lia.
  - done.
  - simpl. by rewrite substring_full.
  - change (String c s = String c (substring 0 i s +:+ substring i (String.length s - i) s)).
    f_equal. apply IH. lia.
Qed.

Lemma endswith_spec (s suffix : string) :
  Py.endswith s suffix = true ↔ has_suffix s suffix.
Proof.
  unfold Py.endswith, has_suffix. rewrite andb_true_iff, Nat.leb_le, String.eqb_eq.
  split.
  - intros [Hle Hsub]. exists (substring 0 (String.length s - String.length suffix) s).
    etransitivity;
      [apply (substring_split s (String.length s - String.length suffix)); lia|].
    f_equal.
    replace (String.length s - (String.length s - String.length suffix))%nat
      with (String.length suffix) by lia.
    exact Hsub.
  - intros [pre ->]. rewrite string_length_app. split; [lia|].
    replace (String.length pre + String.length suffix - String.length suffix)%nat
      with (String.length pre) by lia.
    apply substring_app_r.
Qed.

Lemma endswith_any_false (s : string) (suffixes : list string) :
  Py.endswith_any s suffixes = false ↔ ∀ ext, ext ∈ suffixes → ¬ has_suffix s ext.
Proof.
  unfold Py.endswith_any. split.
  - intros Hnone ext Hin Hsuf. apply endswith_spec in Hsuf.
    assert (existsb (Py.endswith s) suffixes = true); [|congruence].
    apply existsb_exists. exists ext. split; [by apply list_elem_of_In|done].
  - intros Hall. destruct (existsb (Py.endswith s) suffixes) eqn:Hex; [|done].
    apply existsb_exists in Hex as (ext & Hin & Hend).
    exfalso. apply (Hall ext); [by apply list_elem_of_In|by apply endswith_spec].
Qed.

(** ** The crawl filter *)

Lemma should_crawl_spec (self : AdvancedScraper) (url : string) :
  should_crawl self url = true
  ↔ netloc (urlparse url) = netloc (urlparse (base_url self))
    ∧ (url ∉ visited self)
    ∧ (∀ ext, ext ∈ skipped_extensions → ¬ has_suffix url ext).
Proof.
  unfold should_crawl. rewrite !andb_true_iff, !negb_true_iff.
  rewrite String.eqb_eq, bool_decide_eq_false, endswith_any_false. tauto.
Qed.

(** C3, as the code has it: [should_crawl] admits a URL exactly when its
    network location is that of the seed, it is not in [visited], and
    the URL as a whole (query and fragment with it, not its path) does
    not end in [.pdf], [.jpg], [.png] or [.gif], in this case; so every
    URL an iteration appends to the queue has the seed's network
    location and none of these endings. *)
Theorem should_crawl_filters_whole_url (self : AdvancedScraper) (url : string) :
  (should_crawl self url = true
   ↔ netloc (urlparse url) = netloc (urlparse (base_url self))
     ∧ (url ∉ visited self)
     ∧ (∀ ext, ext ∈ [".pdf"; ".jpg"; ".png"; ".gif"] → ¬ has_suffix url ext))
  ∧ (∀ session st u rest st',
       queue st = u :: rest →
       loop_body session st = Return st' →
       ∃ found, queue st' = rest ++ found
                ∧ ∀ c, c ∈ found →
                    netloc (urlparse c) = netloc (urlparse (base_url (scraper st)))
                    ∧ (∀ ext, ext ∈ [".pdf"; ".jpg"; ".png"; ".gif"] → ¬ has_suffix c ext)).
Proof.
  split; [apply should_crawl_spec|].
  intros session st u rest st' Hq Hbody.
  destruct (decide (u ∈ visited (scraper st))) as [Hin|Hnin].
  - rewrite (loop_body_skip session st u rest Hq Hin) in Hbody.
    injection Hbody as <-. exists []. simpl. split; [by rewrite app_nil_r|].
    intros c Hc. inversion Hc.
  - destruct (loop_body_fresh_spec session st u rest Hq Hnin)
      as (st1 & found & logged & Hst1 & _ & Hbase & Hqueue & Hfound & _).
    rewrite Hst1 in Hbody. injection Hbody as <-.
    exists found. split; [done|]. intros c Hc.
    rewrite List.Forall_forall in Hfound.
    specialize (Hfound c (proj1 (list_elem_of_In _ _) Hc)).
    apply should_crawl_spec in Hfound as (Hloc & _ & Hext).
    rewrite Hbase in Hloc. done.
Qed.

(** ** The fetcher *)

(** C4: [fetch_page] returns the text exactly when the response has
    status 200; on another status it returns [None] and logs the
    warning with the status; when anything is raised it returns [None]
    and logs the error; it is a total function (nothing is raised past
    it) that issues exactly one request; and when it returns [None] the
    caller records nothing, enqueues nothing, sleeps and returns to the
    loop. *)
Theorem fetch_page_classifies (self : AdvancedScraper) (url : string)
    (session : option string) (tr : list Event) :
  (∀ body, fst (fetch_page self url session tr) = Some body
           ↔ session_get session (List.length tr) url = Response 200 body)
  ∧ (∀ status text,
       session_get session (List.length tr) url = Response status text →
       status ≠ 200%Z →
       fetch_page self url session tr
       = (None, tr ++ [EvGet session url; EvLog (WarningFailed url status)]))
  ∧ (∀ e, session_get session (List.length tr) url = Raised e →
       fetch_page self url session tr
       = (None, tr ++ [EvGet session url; EvLog (ErrorFetching url e)]))
  ∧ fetches (snd (fetch_page self url session tr)) = fetches tr ++ [url]
  ∧ (∀ st u rest,
       queue st = u :: rest →
       u ∉ visited (scraper st) →
       let self1 := set_visited ({[u]} ∪ visited (scraper st)) (scraper st) in
       let r := fetch_page self1 u session (trace st ++ [EvLog (InfoCrawling u)]) in
       fst r = None →
       loop_body session st
       = Return {| scraper := self1; queue := rest;
                   trace := snd r ++ [EvSleep (delay self1)] |}).
Proof.
  split; [|split; [|split; [|split]]].
  - intros body. unfold fetch_page.
    destruct (session_get session (List.length tr) url) as [status text|e]; simpl.
    + destruct (Z.eqb_spec status 200) as [->|Hne]; simpl.
      * split; congruence.
      * split; [discriminate|]. intros [= -> _]. done.
    + split; discriminate.
  - intros status text Hnet Hne.
    by rewrite (fetch_page_bad_status self url session tr status text Hnet Hne).
  - intros e Hnet. by rewrite (fetch_page_raised self url session tr e Hnet).
  - apply fetch_page_fetches.
  - intros st u rest Hq Hnin self1 r Hnone.
    rewrite (loop_body_fresh session st u rest Hq Hnin). cbv zeta.
    fold self1. fold r. by rewrite Hnone.
Qed.

(** ** The page extractor on no content *)


(** ** The order on timestamps *)

Lemma ascii_compare_refl (c : ascii) : Ascii.compare c c = Eq.
Proof. unfold Ascii.compare. apply N.compare_refl. Qed.

Lemma string_leb_refl (s : string) : String.leb s s = true.
Proof.
  unfold String.leb. induction s as [|c s IH]; simpl; [done|].
  by rewrite ascii_compare_refl.
Qed.

Lemma string_leb_trans (a b c : string) :
  String.leb a b = true → String.leb b c = true → String.leb a c = true.
Proof.
  unfold String.leb. revert b c.
  induction a as [|x a IH]; intros [|y b] [|z c]; simpl; try done.
  unfold Ascii.compare.
  destruct (N.compare_spec (N_of_ascii x) (N_of_ascii y)) as [Hxy|Hxy|Hxy];
    destruct (N.compare_spec (N_of_ascii y) (N_of_ascii z)) as [Hyz|Hyz|Hyz];
    destruct (N.compare_spec (N_of_ascii x) (N_of_ascii z)) as [Hxz|Hxz|Hxz];
    try done; try lia.
  apply IH.
Qed.

Lemma string_ltb_leb (a b : string) : String.ltb a b = true → String.leb a b = true.
Proof. unfold String.ltb, String.leb. by destruct (String.compare a b). Qed.

Lemma string_not_ltb_leb (a b : string) : String.ltb a b = false → String.leb b a = true.
Proof.
  unfold String.ltb, String.leb. rewrite (String.compare_antisym b a).
  by destruct (String.compare a b).
Qed.

Lemma fold_min_spec (xs : list string) (x : string) :
  let m := fold_left (fun m y => if String.ltb y m then y else m) xs x in
  m ∈ x :: xs ∧ ∀ y, y ∈ x :: xs → String.leb m y = true.
Proof.
  revert x. induction xs as [|y xs IH]; intros x; simpl.
  - split; [apply list_elem_of_here|]. intros z Hz.
    apply list_elem_of_singleton in Hz as ->. apply string_leb_refl.
  - destruct (IH (if String.ltb y x then y else x)) as [Hin Hle].
    split.
    + apply elem_of_cons in Hin as [->|Hin].
      * destruct (String.ltb y x);
          [apply list_elem_of_further, list_elem_of_here|apply list_elem_of_here].
      * by do 2 apply list_elem_of_further.
    + intros z Hz.
      assert (Hx' : String.leb (fold_left (fun m y => if String.ltb y m then y else m) xs
                                  (if String.ltb y x then y else x))
                               (if String.ltb y x then y else x) = true)
        by (apply Hle, list_elem_of_here).
      apply elem_of_cons in Hz as [->|Hz]; [|apply elem_of_cons in Hz as [->|Hz]].
      * eapply string_leb_trans; [exact Hx'|].
        destruct (String.ltb y x) eqn:Hlt;
          [by apply string_ltb_leb|apply string_leb_refl].
      * eapply string_leb_trans; [exact Hx'|].
        destruct (String.ltb y x) eqn:Hlt;
          [apply string_leb_refl|by apply string_not_ltb_leb].
      * apply Hle. by apply list_elem_of_further.
Qed.

Lemma fold_max_spec (xs : list string) (x : string) :
  let m := fold_left (fun m y => if String.ltb m y then y else m) xs x in
  m ∈ x :: xs ∧ ∀ y, y ∈ x :: xs → String.leb y m = true.
Proof.
  revert x. induction xs as [|y xs IH]; intros x; simpl.
  - split; [apply list_elem_of_here|]. intros z Hz.
    apply list_elem_of_singleton in Hz as ->. apply string_leb_refl.
  - destruct (IH (if String.ltb x y then y else x)) as [Hin Hle].
    split.
    + apply elem_of_cons in Hin as [->|Hin].
      * destruct (String.ltb x y);
          [apply list_elem_of_further, list_elem_of_here|apply list_elem_of_here].
      * by do 2 apply list_elem_of_further.
    + intros z Hz.
      assert (Hx' : String.leb (if String.ltb x y then y else x)
                      (fold_left (fun m y => if String.ltb m y then y else m) xs
                                 (if String.ltb x y then y else x)) = true)
        by (apply Hle, list_elem_of_here).
      apply elem_of_cons in Hz as [->|Hz]; [|apply elem_of_cons in Hz as [->|Hz]].
      * eapply string_leb_trans; [|exact Hx'].
        destruct (String.ltb x y) eqn:Hlt;
          [by apply string_ltb_leb|apply string_leb_refl].
      * eapply string_leb_trans; [|exact Hx'].
        destruct (String.ltb x y) eqn:Hlt;
          [apply string_leb_refl|by apply string_not_ltb_leb].
      * apply Hle. by apply list_elem_of_further.
Qed.

Lemma py_min_spec (l : list string) (m : string) :
  Py.min l = Some m → m ∈ l ∧ ∀ y, y ∈ l → String.leb m y = true.
Proof.
  destruct l as [|x xs]; simpl; [discriminate|]. intros [= <-]. apply fold_min_spec.
Qed.

Lemma py_max_spec (l : list string) (m : string) :
  Py.max l = Some m → m ∈ l ∧ ∀ y, y ∈ l → String.leb y m = true.
Proof.
  destruct l as [|x xs]; simpl; [discriminate|]. intros [= <-]. apply fold_max_spec.
Qed.

Lemma py_sum_spec (l : list nat) : Py.sum l = sum_list l.
Proof.
  unfold Py.sum.
  assert (Hacc : ∀ a, fold_left Nat.add l a = (a + sum_list l)%nat).
  { induction l as [|x l IH]; intros a; simpl; [lia|]. rewrite IH. lia. }
  apply Hacc.
Qed.

(** ** The exporter *)

Lemma export_data_empty (self : AdvancedScraper) (tr : list Event) :
  data self = [] →
  export_data self tr
  = (Raise ValueError,
     tr ++ [EvWrite ("scraping_results_" +:+ now_strftime (List.length tr) +:+ ".json")
                    (JsonDump []);
            EvWrite ("scraping_results_" +:+ now_strftime (List.length tr) +:+ ".csv")
                    (CsvTable [])]).
Proof.
  intros Hdata. unfold export_data. rewrite Hdata. simpl. by rewrite <- app_assoc.
Qed.

Lemma export_data_nonempty (self : AdvancedScraper) (tr : list Event) :
  data self ≠ [] →
  ∃ earliest latest,
    Py.min (map pd_timestamp (data self)) = Some earliest
    ∧ Py.max (map pd_timestamp (data self)) = Some latest
    ∧ export_data self tr
      = (Return tt,
         tr ++ [EvWrite ("scraping_results_" +:+ now_strftime (List.length tr) +:+ ".json")
                        (JsonDump (data self));
                EvWrite ("scraping_results_" +:+ now_strftime (List.length tr) +:+ ".csv")
                        (CsvTable (data self));
                EvWrite ("scraping_summary_" +:+ now_strftime (List.length tr) +:+ ".json")
                        (JsonSummary
                           {| pages_scraped := size (visited self);
                              total_links := Py.sum (map (fun d => List.length (pd_links d)) (data self));
                              total_emails := Py.sum (map (fun d => List.length (pd_emails d)) (data self));
                              total_phones := Py.sum (map (fun d => List.length (pd_phones d)) (data self));
                              total_forms := Py.sum (map (fun d => List.length (pd_forms d)) (data self));
                              start_time := earliest; end_time := latest |})]).
Proof.
  intros Hdata. unfold export_data.
  destruct (data self) as [|d ds] eqn:Hd; [done|]. simpl.
  eexists _, _. split; [reflexivity|]. split; [reflexivity|].
  by rewrite <- !app_assoc.
Qed.

(** C7: when [data] is not empty, [export_data] returns after writing
    the dump, the table and a summary whose page count is the size of
    [visited], whose totals are the sums of the lengths of the links,
    e-mails, phones and forms of the records, and whose start and end
    times are timestamps of records, the start no later and the end no
    earlier than any other; it raises, and then the [ValueError] of the
    empty aggregate, exactly when [data] is empty. *)
Theorem export_data_summary (self : AdvancedScraper) (tr : list Event) :
  (data self ≠ [] →
   ∃ summary,
     export_data self tr
     = (Return tt,
        tr ++ [EvWrite ("scraping_results_" +:+ now_strftime (List.length tr) +:+ ".json")
                       (JsonDump (data self));
               EvWrite ("scraping_results_" +:+ now_strftime (List.length tr) +:+ ".csv")
                       (CsvTable (data self));
               EvWrite ("scraping_summary_" +:+ now_strftime (List.length tr) +:+ ".json")
                       (JsonSummary summary)])
     ∧ pages_scraped summary = size (visited self)
     ∧ total_links summary = sum_list (map (fun d => List.length (pd_links d)) (data self))
     ∧ total_emails summary = sum_list (map (fun d => List.length (pd_emails d)) (data self))
     ∧ total_phones summary = sum_list (map (fun d => List.length (pd_phones d)) (data self))
     ∧ total_forms summary = sum_list (map (fun d => List.length (pd_forms d)) (data self))
     ∧ (∃ d, d ∈ data self ∧ start_time summary = pd_timestamp d)
     ∧ (∀ d, d ∈ data self → String.leb (start_time summary) (pd_timestamp d) = true)
     ∧ (∃ d, d ∈ data self ∧ end_time summary = pd_timestamp d)
     ∧ (∀ d, d ∈ data self → String.leb (pd_timestamp d) (end_time summary) = true))
  ∧ ((∃ e, fst (export_data self tr) = Raise e) ↔ data self = [])
  ∧ (fst (export_data self tr) = Raise ValueError ↔ data self = []).
Proof.
  split; [|split].
  - intros Hdata.
    destruct (export_data_nonempty self tr Hdata) as (earliest & latest & Hmin & Hmax & ->).
    apply py_min_spec in Hmin as [Hmin_in Hmin_le].
    apply py_max_spec in Hmax as [Hmax_in Hmax_le].
    eexists. split; [reflexivity|]. simpl. rewrite !py_sum_spec.
    repeat split; try done.
    + apply list_elem_of_fmap in Hmin_in as (d & -> & Hd). eauto.
    + intros d Hd. apply Hmin_le. apply list_elem_of_fmap. eauto.
    + apply list_elem_of_fmap in Hmax_in as (d & -> & Hd). eauto.
    + intros d Hd. apply Hmax_le. apply list_elem_of_fmap. eauto.
  - split.
    + intros [e He]. destruct (data self) as [|d ds] eqn:Hd; [done|].
      assert (Hne : data self ≠ []) by (by rewrite Hd).
      destruct (export_data_nonempty self tr Hne) as (? & ? & _ & _ & Hex).
      rewrite Hex in He. discriminate.
    + intros Hdata. exists ValueError. by rewrite (export_data_empty self tr Hdata).
  - split.
    + intros He. destruct (data self) as [|d ds] eqn:Hd; [done|].
      assert (Hne : data self ≠ []) by (by rewrite Hd).
      destruct (export_data_nonempty self tr Hne) as (? & ? & _ & _ & Hex).
      rewrite Hex in He. discriminate.
    + intros Hdata. by rewrite (export_data_empty self tr Hdata).
Qed.

(** C10: with an empty [data], [export_data] writes the dump and the
    table, then raises the [ValueError] of the empty aggregate; these
    two files are all it wrote, and no summary is among them. *)
Theorem export_data_empty_not_atomic (self : AdvancedScraper) (tr : list Event) :
  data self = [] →
  fst (export_data self tr) = Raise ValueError
  ∧ snd (export_data self tr)
    = tr ++ [EvWrite ("scraping_results_" +:+ now_strftime (List.length tr) +:+ ".json")
                     (JsonDump []);
             EvWrite ("scraping_results_" +:+ now_strftime (List.length tr) +:+ ".csv")
                     (CsvTable [])]
  ∧ written (snd (export_data self tr))
    = written tr
      ++ [("scraping_results_" +:+ now_strftime (List.length tr) +:+ ".json", JsonDump []);
          ("scraping_results_" +:+ now_strftime (List.length tr) +:+ ".csv", CsvTable [])]
  ∧ (∀ name summary,
       (name, JsonSummary summary) ∈ written (snd (export_data self tr)) →
       (name, JsonSummary summary) ∈ written tr).
Proof.
  intros Hdata. rewrite (export_data_empty self tr Hdata). simpl.
  split; [done|]. split; [done|]. rewrite written_app. simpl.
  split; [done|]. intros name summary Hin.
  apply elem_of_app in Hin as [Hin|Hin]; [done|].
  apply elem_of_cons in Hin as [Heq|Hin]; [discriminate|].
  apply list_elem_of_singleton in Hin. discriminate.
Qed.

End Facts.

(** ** The proxy rotator *)

Lemma set_current_proxy_same (self : AdvancedScraper) :
  set_current_proxy (current_proxy self) self = self.
Proof. by destruct self. Qed.

Lemma rotate_proxy_nonempty (self : AdvancedScraper) :
  proxies self ≠ [] →
  rotate_proxy self
  = (proxies self !! ((current_proxy self + 1) mod List.length (proxies self))%nat,
     set_current_proxy ((current_proxy self + 1) mod List.length (proxies self))%nat self).
Proof. unfold rotate_proxy. by destruct (proxies self). Qed.

(** After [k + 1] calls the cursor has moved [k + 1] places round the
    list, and the last call returned the proxy there. *)
Lemma rotate_proxy_n_cursor (k : nat) (self : AdvancedScraper) :
  proxies self ≠ [] →
  let c := ((current_proxy self + S k) mod List.length (proxies self))%nat in
  snd (rotate_proxy_n (S k) self) = set_current_proxy c self
  ∧ last (fst (rotate_proxy_n (S k) self)) = Some (proxies self !! c).
Proof.
  revert self. induction k as [|k IH]; intros self Hne.
  - cbv zeta. simpl. rewrite (rotate_proxy_nonempty self Hne). done.
  - cbv zeta. change (rotate_proxy_n (S (S k)) self)
      with (let '(p, self1) := rotate_proxy self in
            let '(ps, self2) := rotate_proxy_n (S k) self1 in (p :: ps, self2)).
    rewrite (rotate_proxy_nonempty self Hne).
    set (self1 := set_current_proxy _ self).
    assert (Hne1 : proxies self1 ≠ []) by done.
    destruct (IH self1 Hne1) as [Hsnd Hlast]. cbv zeta in Hsnd, Hlast.
    destruct (rotate_proxy_n (S k) self1) as [ps self2]. simpl in *.
    assert (Hc : ((((current_proxy self + 1) mod List.length (proxies self)) + S k)
                  mod List.length (proxies self)
                  = (current_proxy self + S (S k)) mod List.length (proxies self))%nat).
    { rewrite Nat.Div0.add_mod_idemp_l. f_equal. lia. }
    rewrite Hc in Hsnd, Hlast. split.
    + by rewrite Hsnd.
    + rewrite last_cons, Hlast. done.
Qed.

Lemma rotate_proxy_n_empty (k : nat) (self : AdvancedScraper) :
  proxies self = [] → rotate_proxy_n k self = (replicate k None, self).
Proof.
  intros Hnil. induction k as [|k IH]; simpl; [done|].
  unfold rotate_proxy at 1. rewrite Hnil. by rewrite IH.
Qed.

(** C8: with a list of [n > 0] proxies, [rotate_proxy] moves the cursor
    to [(current_proxy + 1) mod n] and returns the proxy there; [n]
    calls in a row bring the cursor back and the last of them returns
    the proxy the cursor started on; the call [crawl] makes on a new
    scraper with at least two proxies returns the second one.  With no
    proxy, which is also what a missing file gives, every call returns
    [None] and [crawl] connects directly. *)
Theorem rotate_proxy_round_robin (self : AdvancedScraper) :
  (proxies self ≠ [] →
   ∃ p, rotate_proxy self
        = (Some p,
           set_current_proxy ((current_proxy self + 1) mod List.length (proxies self))%nat self)
        ∧ proxies self !! ((current_proxy self + 1) mod List.length (proxies self))%nat
          = Some p)
  ∧ ((current_proxy self < List.length (proxies self))%nat →
     ∃ p, proxies self !! current_proxy self = Some p
          ∧ snd (rotate_proxy_n (List.length (proxies self)) self) = self
          ∧ last (fst (rotate_proxy_n (List.length (proxies self)) self)) = Some (Some p))
  ∧ (∀ url d proxies_txt p1 p2 others,
       load_proxies proxies_txt = p1 :: p2 :: others →
       fst (connector (init url d proxies_txt)) = Some p2)
  ∧ (proxies self = [] → ∀ k, rotate_proxy_n k self = (replicate k None, self))
  ∧ load_proxies None = []
  ∧ (∀ url d, connector (init url d None) = (None, init url d None)).
Proof.
  split; [|split; [|split; [|split; [|split]]]].
  - intros Hne. rewrite (rotate_proxy_nonempty self Hne).
    destruct (lookup_lt_is_Some_2 (proxies self)
                ((current_proxy self + 1) mod List.length (proxies self))%nat) as [p Hp].
    { apply Nat.mod_upper_bound. destruct (proxies self); simpl; [done|lia]. }
    exists p. by rewrite Hp.
  - intros Hlt. destruct (lookup_lt_is_Some_2 _ _ Hlt) as [p Hp]. exists p.
    split; [done|].
    assert (Hne : proxies self ≠ []).
    { intros Hnil. rewrite Hnil in Hlt. simpl in Hlt. lia. }
    destruct (List.length (proxies self)) as [|k] eqn:Hlen; [lia|].
    destruct (rotate_proxy_n_cursor k self Hne) as [Hsnd Hlast].
    cbv zeta in Hsnd, Hlast. rewrite Hlen in Hsnd, Hlast.
    assert (Hc : ((current_proxy self + S k) mod S k = current_proxy self)%nat).
    { replace (current_proxy self + S k)%nat with (current_proxy self + 1 * S k)%nat by lia.
      rewrite Nat.Div0.mod_add. apply Nat.mod_small. lia. }
    rewrite Hc in Hsnd, Hlast. split.
    + rewrite Hsnd. apply set_current_proxy_same.
    + by rewrite Hlast, Hp.
  - intros url d proxies_txt p1 p2 others Hload.
    unfold connector, rotate_proxy, init. simpl. rewrite Hload. simpl.
    by replace (S (List.length others) - List.length others)%nat with 1%nat by lia.
  - intros Hnil k. by apply rotate_proxy_n_empty.
  - done.
  - done.
Qed.

(** * The properties on the example web *)

Section Examples.
Import Example.

(** A crawl of the example web: [/a] is in the queue twice after the
    seed page, the second page of the report is there twice after [/b],
    and each is requested once. *)
Example crawl_example :
  queue (crawl_upto 1 fresh None []) = [page_a; page_b; page_a; report_page2]
  ∧ queue (crawl_upto 3 fresh None []) = [page_a; report_page2; report_page2]
  ∧ ∃ st, crawl 10 fresh None [] = Some (Return st)
          ∧ fetches (trace st) = [seed; page_a; page_b; report_page2]
          ∧ map pd_url (data (scraper st)) = [seed; page_b]
          ∧ sleeps (trace st) = 4%nat.
Proof.
  split; [by vm_compute|]. split; [by vm_compute|].
  eexists. split; [by vm_compute|]. by vm_compute.
Qed.

(** [main] on the example web writes the three files; on a seed that
    answers 404 it writes two and raises. *)
Example main_example :
  (∃ tr, main 10 seed 1%Q None None = Some (Return tt, tr)
         ∧ map fst (written tr)
           = ["scraping_results_20240101_000014.json";
              "scraping_results_20240101_000014.csv";
              "scraping_summary_20240101_000014.json"])
  ∧ (∃ tr, main 10 page_a 1%Q None None = Some (Raise ValueError, tr)
           ∧ written tr
             = [("scraping_results_20240101_000004.json", JsonDump []);
                ("scraping_results_20240101_000004.csv", CsvTable [])]).
Proof.
  split; eexists; (split; [by vm_compute|by vm_compute]).
Qed.

(** The endings are compared in this case only. *)
Example upper_case_extension_passes : should_crawl fresh photo_upper = true.
Proof. by vm_compute. Qed.

(** With a ceiling of 2 the example crawl ends with 2 URLs visited. *)
Lemma max_pages_bounds_visited_witness :
  (0 <= 2)%Z
  ∧ ∀ n, (Z.of_nat (size (visited (scraper (crawl_upto n fresh (Some 2%Z) [])))) <= 2)%Z.
Proof.
  split; [lia|].
  apply (max_pages_bounds_visited 2 seed 1%Q None). lia.
Defined.

(** Dequeuing the seed a second time changes nothing but the queue. *)
Lemma url_fetched_at_most_once_witness :
  queue seed_again = seed :: [page_b]
  ∧ seed ∈ visited (scraper seed_again)
  ∧ loop_body None seed_again
    = Return {| scraper := scraper seed_again; queue := [page_b];
                trace := trace seed_again |}.
Proof.
  assert (Hq : queue seed_again = seed :: [page_b]) by reflexivity.
  assert (Hin : seed ∈ visited (scraper seed_again)) by (by vm_compute).
  split; [exact Hq|]. split; [exact Hin|].
  exact (proj1 (proj2 (proj2 (url_fetched_at_most_once seed 1%Q None None None)))
           seed_again seed [page_b] Hq Hin).
Defined.

(** C3 as stated fails: a URL whose path is [/a], with a query that ends
    in [.pdf], has the seed's network location and is not visited, yet
    is rejected; a URL whose path ends in [.pdf], followed by a query,
    is admitted and enqueued. *)
Lemma should_crawl_path_counterexample :
  ¬ (should_crawl fresh query_pdf = true
     ↔ netloc (urlparse query_pdf) = netloc (urlparse (base_url fresh))
       ∧ (query_pdf ∉ visited fresh)
       ∧ Py.endswith_any (path (urlparse query_pdf)) [".pdf"; ".jpg"; ".png"; ".gif"] = false)
  ∧ Py.endswith (path (urlparse report_page2)) ".pdf" = true
  ∧ should_crawl fresh report_page2 = true
  ∧ report_page2 ∈ queue (crawl_upto 1 fresh None []).
Proof.
  split; [|split; [by vm_compute|split; [by vm_compute|]]].
  - intros [_ Hclaim].
    assert (Hrejected : should_crawl fresh query_pdf = false) by (by vm_compute).
    rewrite Hclaim in Hrejected; [discriminate|].
    split; [by vm_compute|]. split; [apply not_elem_of_empty|by vm_compute].
  - replace (queue (crawl_upto 1 fresh None []))
      with [page_a; page_b; page_a; report_page2] by (by vm_compute).
    do 3 apply list_elem_of_further. apply list_elem_of_here.
Qed.

(** What the first iteration of the example crawl appends has the
    seed's network location and none of the endings. *)
Lemma should_crawl_filters_whole_url_witness :
  queue (crawl_start fresh []) = seed :: []
  ∧ ∃ found, queue (crawl_upto 1 fresh None []) = [] ++ found
             ∧ ∀ c, c ∈ found →
                 netloc (urlparse c) = netloc (urlparse (base_url (scraper (crawl_start fresh []))))
                 ∧ (∀ ext, ext ∈ [".pdf"; ".jpg"; ".png"; ".gif"] → ¬ has_suffix c ext).
Proof.
  split; [reflexivity|].
  apply (proj2 (should_crawl_filters_whole_url fresh seed) None (crawl_start fresh []) seed []).
  - reflexivity.
  - by vm_compute.
Defined.

(** The 404 of [/a]. *)
Lemma fetch_page_classifies_witness :
  session_get None 0 page_a = Response 404 "Not Found"
  ∧ 404%Z ≠ 200%Z
  ∧ fetch_page fresh page_a None []
    = (None, [] ++ [EvGet None page_a; EvLog (WarningFailed page_a 404)]).
Proof.
  assert (Hnet : session_get None (List.length (@nil Event)) page_a = Response 404 "Not Found")
    by reflexivity.
  assert (Hne : 404%Z ≠ 200%Z) by lia.
  split; [exact Hnet|]. split; [exact Hne|].
  exact (proj1 (proj2 (fetch_page_classifies fresh page_a None []))
           404%Z "Not Found" Hnet Hne).
Defined.

(** The iteration on [/a], which answers 404. *)
Lemma failed_fetch_changes_nothing_witness :
  queue before_a = page_a :: [page_b]
  ∧ (page_a ∉ visited (scraper before_a))
  ∧ ∃ st', loop_body None before_a = Return st'
           ∧ data (scraper st') = data (scraper before_a)
           ∧ queue st' = [page_b]
           ∧ page_a ∈ visited (scraper st')
           ∧ visited (scraper st') = {[page_a]} ∪ visited (scraper before_a)
           ∧ (∀ fuel max_pages, loop_cond max_pages before_a = true →
                while_loop (S fuel) max_pages None before_a
                = while_loop fuel max_pages None st').
Proof.
  assert (Hq : queue before_a = page_a :: [page_b]) by reflexivity.
  assert (Hnin : page_a ∉ visited (scraper before_a)).
  { intros Hin. vm_compute in Hin. discriminate. }
  split; [exact Hq|]. split; [exact Hnin|].
  apply (failed_fetch_changes_nothing None before_a page_a [page_b] Hq Hnin).
  vm_compute. lia.
Defined.


(** Two records: the start time is that of the second. *)
Lemma export_data_summary_witness :
  data two_pages ≠ []
  ∧ ∃ summary,
      fst (export_data two_pages []) = Return tt
      ∧ pages_scraped summary = 3%nat
      ∧ (∀ d, d ∈ data two_pages → String.leb (start_time summary) (pd_timestamp d) = true).
Proof.
  assert (Hdata : data two_pages ≠ []) by discriminate.
  split; [exact Hdata|].
  destruct (proj1 (export_data_summary two_pages []) Hdata)
    as (summary & Hexport & Hpages & _ & _ & _ & _ & _ & Hstart & _).
  exists summary. split; [by rewrite Hexport|]. split; [|exact Hstart].
  rewrite Hpages. by vm_compute.
Defined.

(** Two proxies: two calls bring the cursor back. *)
Lemma rotate_proxy_round_robin_witness :
  (current_proxy (init seed 1%Q two_proxies)
   < List.length (proxies (init seed 1%Q two_proxies)))%nat
  ∧ ∃ p, proxies (init seed 1%Q two_proxies) !! current_proxy (init seed 1%Q two_proxies)
         = Some p
         ∧ snd (rotate_proxy_n (List.length (proxies (init seed 1%Q two_proxies)))
                               (init seed 1%Q two_proxies))
           = init seed 1%Q two_proxies
         ∧ last (fst (rotate_proxy_n (List.length (proxies (init seed 1%Q two_proxies)))
                                     (init seed 1%Q two_proxies)))
           = Some (Some p).
Proof.
  assert (Hlt : (current_proxy (init seed 1%Q two_proxies)
                 < List.length (proxies (init seed 1%Q two_proxies)))%nat)
    by (vm_compute; lia).
  split; [exact Hlt|].
  exact (proj1 (proj2 (rotate_proxy_round_robin (init seed 1%Q two_proxies))) Hlt).
Defined.


(** A new scraper has recorded nothing. *)
Lemma export_data_empty_not_atomic_witness :
  data fresh = []
  ∧ fst (export_data fresh []) = Raise ValueError
  ∧ written (snd (export_data fresh []))
    = [("scraping_results_20240101_000000.json", JsonDump []);
       ("scraping_results_20240101_000000.csv", CsvTable [])].
Proof.
  assert (Hdata : data fresh = []) by reflexivity.
  split; [exact Hdata|].
  destruct (export_data_empty_not_atomic fresh [] Hdata) as (Hraise & _ & Hwritten & _).
  split; [exact Hraise|]. rewrite Hwritten. reflexivity.
Defined.

End Examples.

(** * Further properties of the crawler *)

Section MoreFacts.
Context `{Platform}.

(** ** The record of a page *)

Lemma parse_page_record (self : AdvancedScraper) (html url : string) (t : nat) :
  Py.truthy html = true →
  parse_page self (Some html) url t
  = PyDict {| pd_url := url;
              pd_timestamp := now_isoformat t;
              pd_title := match soup_title (BeautifulSoup html) with
                          | Some title => title
                          | None => None
                          end;
              pd_links := extract_links url (soup_a (BeautifulSoup html));
              pd_emails := remove_dups (re_findall email_pattern html);
              pd_phones := remove_dups (re_findall phone_pattern html);
              pd_forms := soup_form (BeautifulSoup html);
              pd_metadata := extract_metadata (soup_meta (BeautifulSoup html)) |}.
Proof. intros Hhtml. unfold parse_page. by rewrite Hhtml. Qed.

Lemma parse_page_truthy_url (self : AdvancedScraper) (html : option string)
    (url : string) (t : nat) :
  Py.truthy_opt html = true →
  ∃ d, parse_page self html url t = PyDict d ∧ pd_url d = url.
Proof.
  intros Hhtml. destruct html as [html|]; [|discriminate].
  rewrite (parse_page_record self html url t Hhtml). eauto.
Qed.

(** ** What one iteration on a new URL does to the object *)

Lemma loop_body_fresh_data (session : option string) (st : Loop) (u : string)
    (rest : list string) :
  queue st = u :: rest →
  u ∉ visited (scraper st) →
  ∃ st' logged,
    loop_body session st = Return st'
    ∧ visited (scraper st') = {[u]} ∪ visited (scraper st)
    ∧ base_url (scraper st') = base_url (scraper st)
    ∧ delay (scraper st') = delay (scraper st)
    ∧ proxies (scraper st') = proxies (scraper st)
    ∧ current_proxy (scraper st') = current_proxy (scraper st)
    ∧ trace st' = trace st ++ [EvLog (InfoCrawling u)] ++ EvGet session u :: logged
    ∧ fetches logged = [] ∧ sleeps logged = 1%nat
    ∧ ((data (scraper st') = data (scraper st) ∧ queue st' = rest)
       ∨ (∃ page_data,
            data (scraper st') = data (scraper st) ++ [page_data]
            ∧ pd_url page_data = u
            ∧ queue st'
              = rest ++ filter (fun c => should_crawl (scraper st') c = true)
                               (map link_url (pd_links page_data)))).
Proof.
  intros Hq Hnin. rewrite (loop_body_fresh session st u rest Hq Hnin). cbv zeta.
  destruct (fetch_page_trace
              (set_visited ({[u]} ∪ visited (scraper st)) (scraper st)) u session
              (trace st ++ [EvLog (InfoCrawling u)])) as (logged & Htr & Hf & Hs).
  destruct (Py.truthy_opt _) eqn:Hhtml.
  - destruct (parse_page_truthy_url
                (set_visited ({[u]} ∪ visited (scraper st)) (scraper st)) _ u
                (List.length (snd (fetch_page
                   (set_visited ({[u]} ∪ visited (scraper st)) (scraper st)) u session
                   (trace st ++ [EvLog (InfoCrawling u)])))) Hhtml) as (d & -> & Hurl).
    eexists _, (logged ++ [EvSleep _]). split; [reflexivity|]. simpl.
    repeat split; try done.
    + rewrite Htr. by rewrite <- !app_assoc.
    + rewrite fetches_app, Hf. done.
    + rewrite sleeps_app, Hs. done.
    + right. exists d. done.
  - eexists _, (logged ++ [EvSleep _]). split; [reflexivity|]. simpl.
    repeat split; try done.
    + rewrite Htr. by rewrite <- !app_assoc.
    + rewrite fetches_app, Hf. done.
    + rewrite sleeps_app, Hs. done.
    + by left.
Qed.

(** The events of an iteration on a new URL: one request, one sleep. *)
Lemma fresh_trace_counts (tr logged : list Event) (session : option string) (u : string) :
  fetches logged = [] → sleeps logged = 1%nat →
  fetches (tr ++ [EvLog (InfoCrawling u)] ++ EvGet session u :: logged) = fetches tr ++ [u]
  ∧ sleeps (tr ++ [EvLog (InfoCrawling u)] ++ EvGet session u :: logged) = S (sleeps tr).
Proof.
  intros Hf Hs. split.
  - rewrite !fetches_app. simpl.
    change (fetches (EvGet session u :: logged)) with (u :: fetches logged).
    by rewrite Hf.
  - rewrite !sleeps_app. simpl.
    change (sleeps (EvGet session u :: logged)) with (sleeps logged). lia.
Qed.

(** Every case of an iteration at once, for the proofs of invariants. *)
Lemma loop_body_cases (session : option string) (st st' : Loop) :
  loop_body session st = Return st' →
  ∃ u rest, queue st = u :: rest
    ∧ ((u ∈ visited (scraper st)
        ∧ st' = {| scraper := scraper st; queue := rest; trace := trace st |})
       ∨ ((u ∉ visited (scraper st))
          ∧ visited (scraper st') = {[u]} ∪ visited (scraper st)
          ∧ base_url (scraper st') = base_url (scraper st)
          ∧ delay (scraper st') = delay (scraper st)
          ∧ proxies (scraper st') = proxies (scraper st)
          ∧ current_proxy (scraper st') = current_proxy (scraper st)
          ∧ fetches (trace st') = fetches (trace st) ++ [u]
          ∧ sleeps (trace st') = S (sleeps (trace st))
          ∧ ((data (scraper st') = data (scraper st) ∧ queue st' = rest)
             ∨ (∃ page_data,
                  data (scraper st') = data (scraper st) ++ [page_data]
                  ∧ pd_url page_data = u
                  ∧ queue st'
                    = rest ++ filter (fun c => should_crawl (scraper st') c = true)
                                     (map link_url (pd_links page_data)))))).
Proof.
  intros Hbody. destruct (queue st) as [|u rest] eqn:Hq.
  - unfold loop_body in Hbody. by rewrite Hq in Hbody.
  - exists u, rest. split; [done|].
    destruct (decide (u ∈ visited (scraper st))) as [Hin|Hnin].
    + left. rewrite (loop_body_skip session st u rest Hq Hin) in Hbody.
      injection Hbody as <-. done.
    + right.
      destruct (loop_body_fresh_data session st u rest Hq Hnin)
        as (st1 & logged & Hst1 & Hv & Hb & Hd & Hp & Hc & Htr & Hf & Hs & Hdata).
      rewrite Hst1 in Hbody. injection Hbody as <-.
      destruct (fresh_trace_counts (trace st) logged session u Hf Hs) as [Hf' Hs'].
      rewrite Htr. done.
Qed.

(** ** Requests, sleeps and the visited set *)

(** In a crawl of a new scraper, [visited] is exactly the set of the
    URLs requested so far, each request was followed by one sleep, and
    there are at most as many records as requests. *)
Theorem crawl_paces_requests (url : string) (d : Q) (proxies_txt : option (list string))
    (max_pages : option Z) (n : nat) :
  visited (scraper (crawl_upto n (init url d proxies_txt) max_pages []))
  = list_to_set (fetches (trace (crawl_upto n (init url d proxies_txt) max_pages [])))
  ∧ size (visited (scraper (crawl_upto n (init url d proxies_txt) max_pages [])))
    = List.length (fetches (trace (crawl_upto n (init url d proxies_txt) max_pages [])))
  ∧ sleeps (trace (crawl_upto n (init url d proxies_txt) max_pages []))
    = List.length (fetches (trace (crawl_upto n (init url d proxies_txt) max_pages [])))
  ∧ (List.length (data (scraper (crawl_upto n (init url d proxies_txt) max_pages [])))
     <= List.length (fetches (trace (crawl_upto n (init url d proxies_txt) max_pages []))))%nat.
Proof.
  unfold crawl_upto.
  apply (iterate_invariant
           (fun st => visited (scraper st) = list_to_set (fetches (trace st))
                      ∧ size (visited (scraper st)) = List.length (fetches (trace st))
                      ∧ sleeps (trace st) = List.length (fetches (trace st))
                      ∧ (List.length (data (scraper st))
                         <= List.length (fetches (trace st)))%nat)).
  - intros st st' _ (Hset & Hsize & Hsleep & Hdata) Hbody.
    destruct (loop_body_cases _ st st' Hbody) as (u & rest & Hq & Hcase).
    destruct Hcase as [[_ ->]|(Hnin & Hv & _ & _ & _ & _ & Hf & Hs & Hd)]; [done|].
    rewrite Hv, Hf, Hs, length_app. simpl.
    split; [|split; [|split]].
    + rewrite list_to_set_app_L, <- Hset. simpl.
      rewrite union_empty_r_L. apply (comm_L (∪)).
    + rewrite size_union by (by apply disjoint_singleton_l).
      rewrite size_singleton. lia.
    + lia.
    + destruct Hd as [[-> _]|(pd & -> & _)]; [lia|]. rewrite length_app. simpl. lia.
  - destruct (crawl_start_init url d proxies_txt []) as (Hv & _ & Htr).
    assert (Hd : data (scraper (crawl_start (init url d proxies_txt) [])) = []).
    { unfold crawl_start, connector, rotate_proxy. simpl.
      destruct (load_proxies proxies_txt); done. }
    rewrite Hv, Htr, Hd, size_empty. done.
Qed.

(** ** Records and requests *)

(** In a crawl of a new scraper, the URLs of the records are, in order,
    among the URLs requested; so no two records are of the same URL and
    every recorded URL is in [visited]. *)
Theorem records_follow_requests (url : string) (d : Q) (proxies_txt : option (list string))
    (max_pages : option Z) (n : nat) :
  map pd_url (data (scraper (crawl_upto n (init url d proxies_txt) max_pages [])))
  `sublist_of` fetches (trace (crawl_upto n (init url d proxies_txt) max_pages []))
  ∧ NoDup (map pd_url (data (scraper (crawl_upto n (init url d proxies_txt) max_pages []))))
  ∧ ∀ page_data,
      page_data ∈ data (scraper (crawl_upto n (init url d proxies_txt) max_pages [])) →
      pd_url page_data
      ∈ visited (scraper (crawl_upto n (init url d proxies_txt) max_pages [])).
Proof.
  destruct (crawl_start_init url d proxies_txt []) as (Hv & _ & Htr).
  assert (Hstart : fetched_once (crawl_start (init url d proxies_txt) [])).
  { split; rewrite Htr; [apply NoDup_nil_2|]. intros u Hu. inversion Hu. }
  pose proof (iterate_fetched_once max_pages (fst (connector (init url d proxies_txt)))
                n _ Hstart) as [Hnd Hsub].
  assert (Hsl : map pd_url (data (scraper (crawl_upto n (init url d proxies_txt) max_pages [])))
                `sublist_of` fetches (trace (crawl_upto n (init url d proxies_txt) max_pages []))).
  { unfold crawl_upto.
    apply (iterate_invariant
             (fun st => map pd_url (data (scraper st)) `sublist_of` fetches (trace st))).
    - intros st st' _ Hinv Hbody.
      destruct (loop_body_cases _ st st' Hbody) as (u & rest & Hq & Hcase).
      destruct Hcase as [[_ ->]|(Hnin & _ & _ & _ & _ & _ & Hf & _ & Hd)]; [done|].
      rewrite Hf. destruct Hd as [[-> _]|(pd & -> & <- & _)].
      + by apply sublist_inserts_r.
      + rewrite map_app. simpl. by apply sublist_app.
    - assert (Hd : data (scraper (crawl_start (init url d proxies_txt) [])) = []).
      { unfold crawl_start, connector, rotate_proxy. simpl.
        destruct (load_proxies proxies_txt); done. }
      rewrite Hd. apply sublist_nil_l. }
  split; [exact Hsl|]. split.
  - eapply sublist_NoDup; [exact Hnd|exact Hsl].
  - intros pd Hpd. apply Hsub. unfold crawl_upto in Hsl.
    apply (sublist_subseteq _ _ Hsl).
    apply list_elem_of_fmap. eauto.
Qed.

(** ** The crawl stays on the site *)



(** ** What is enqueued *)

(** Whatever an iteration appends to the queue is not in [visited] at
    that moment; in particular a page that links to itself is not
    enqueued again. *)
Theorem enqueued_urls_are_unvisited (session : option string) (st st' : Loop)
    (u : string) (rest : list string) :
  queue st = u :: rest →
  loop_body session st = Return st' →
  ∃ found, queue st' = rest ++ found
           ∧ ∀ c, c ∈ found →
               c ≠ u ∧ (c ∉ visited (scraper st)) ∧ (c ∉ visited (scraper st')).
Proof.
  intros Hq Hbody.
  destruct (loop_body_cases session st st' Hbody) as (u' & rest' & Hq' & Hcase).
  rewrite Hq in Hq'. injection Hq' as <- <-.
  destruct Hcase as [[_ ->]|(Hnin & Hv & _ & _ & _ & _ & _ & _ & Hd)].
  - exists []. simpl. split; [by rewrite app_nil_r|]. intros c Hc. inversion Hc.
  - destruct Hd as [[_ ->]|(pd & _ & _ & ->)].
    + exists []. split; [by rewrite app_nil_r|]. intros c Hc. inversion Hc.
    + eexists. split; [reflexivity|]. intros c Hc.
      apply list_elem_of_filter in Hc as [Hc _].
      apply should_crawl_spec in Hc as (_ & Hc & _). rewrite Hv in Hc |- *.
      split; [|split; [|done]].
      * intros ->. apply Hc. by apply elem_of_union_l, elem_of_singleton.
      * intros Hin. apply Hc. by apply elem_of_union_r.
Qed.

(** ** An empty page *)

(** A response with status 200 and an empty text is treated as no page:
    nothing is recorded or enqueued and, unlike for a failed request,
    nothing is logged; the URL stays in [visited]. *)
Theorem empty_page_is_dropped (session : option string) (st : Loop)
    (u : string) (rest : list string) :
  queue st = u :: rest →
  u ∉ visited (scraper st) →
  session_get session (List.length (trace st ++ [EvLog (InfoCrawling u)])) u
  = Response 200 "" →
  loop_body session st
  = Return {| scraper := set_visited ({[u]} ∪ visited (scraper st)) (scraper st);
              queue := rest;
              trace := trace st ++ [EvLog (InfoCrawling u); EvGet session u;
                                    EvSleep (delay (scraper st))] |}.
Proof.
  intros Hq Hnin Hnet.
  rewrite (loop_body_fresh session st u rest Hq Hnin). cbv zeta.
  rewrite (fetch_page_ok _ u session _ "" Hnet). simpl.
  by rewrite <- !app_assoc.
Qed.

(** ** A page that was fetched *)


(** ** What a crawl leaves alone *)

Lemma fetch_page_written (self : AdvancedScraper) (url : string)
    (session : option string) (tr : list Event) :
  written (snd (fetch_page self url session tr)) = written tr.
Proof.
  unfold fetch_page. destruct (session_get _ _ _) as [status text|e].
  - destruct (status =? 200)%Z; simpl; rewrite !written_app; simpl;
      by rewrite ?app_nil_r.
  - simpl. rewrite !written_app. simpl. by rewrite ?app_nil_r.
Qed.

Lemma loop_body_frame (session : option string) (st st' : Loop) :
  loop_body session st = Return st' →
  written (trace st') = written (trace st)
  ∧ trace st `prefix_of` trace st'
  ∧ data (scraper st) `prefix_of` data (scraper st').
Proof.
  intros Hbody. destruct (queue st) as [|u rest] eqn:Hq.
  - unfold loop_body in Hbody. by rewrite Hq in Hbody.
  - destruct (decide (u ∈ visited (scraper st))) as [Hin|Hnin].
    + rewrite (loop_body_skip session st u rest Hq Hin) in Hbody.
      injection Hbody as <-. done.
    + rewrite (loop_body_fresh session st u rest Hq Hnin) in Hbody. cbv zeta in Hbody.
      pose proof (fetch_page_written
                    (set_visited ({[u]} ∪ visited (scraper st)) (scraper st)) u session
                    (trace st ++ [EvLog (InfoCrawling u)])) as Hw.
      destruct (fetch_page_trace
                  (set_visited ({[u]} ∪ visited (scraper st)) (scraper st)) u session
                  (trace st ++ [EvLog (InfoCrawling u)])) as (logged & Htr & _).
      rewrite written_app in Hw. simpl in Hw. rewrite app_nil_r in Hw.
      destruct (Py.truthy_opt _).
      * destruct (parse_page _ _ _ _) as [|pd]; [discriminate|].
        injection Hbody as <-. simpl. split; [|split].
        -- rewrite written_app, Hw. simpl. by rewrite app_nil_r.
        -- rewrite Htr, <- !app_assoc. by apply prefix_app_r.
        -- by apply prefix_app_r.
      * injection Hbody as <-. simpl. split; [|split; [|done]].
        -- rewrite written_app, Hw. simpl. by rewrite app_nil_r.
        -- rewrite Htr, <- !app_assoc. by apply prefix_app_r.
Qed.


(** A crawl changes neither the seed, the delay nor the list of proxies
    of the object, moves the proxy cursor by the one rotation at its
    start only, writes no file, and only appends: the records and the
    events there were stay, in place, and [visited] keeps its members. *)
Theorem crawl_keeps_configuration (self : AdvancedScraper) (max_pages : option Z)
    (tr : list Event) (n : nat) :
  base_url (scraper (crawl_upto n self max_pages tr)) = base_url self
  ∧ delay (scraper (crawl_upto n self max_pages tr)) = delay self
  ∧ proxies (scraper (crawl_upto n self max_pages tr)) = proxies self
  ∧ current_proxy (scraper (crawl_upto n self max_pages tr))
    = current_proxy (snd (connector self))
  ∧ data self `prefix_of` data (scraper (crawl_upto n self max_pages tr))
  ∧ tr `prefix_of` trace (crawl_upto n self max_pages tr)
  ∧ visited self ⊆ visited (scraper (crawl_upto n self max_pages tr))
  ∧ written (trace (crawl_upto n self max_pages tr)) = written tr.
Proof.
  unfold crawl_upto.
  assert (Hstart : base_url (snd (connector self)) = base_url self
                   ∧ delay (snd (connector self)) = delay self
                   ∧ proxies (snd (connector self)) = proxies self
                   ∧ data (snd (connector self)) = data self
                   ∧ visited (snd (connector self)) = visited self).
  { unfold connector, rotate_proxy. destruct (proxies self) eqn:Hp; simpl; by rewrite ?Hp. }
  destruct Hstart as (Hb0 & Hd0 & Hp0 & Hdata0 & Hv0).
  apply (iterate_invariant
           (fun st => base_url (scraper st) = base_url self
                      ∧ delay (scraper st) = delay self
                      ∧ proxies (scraper st) = proxies self
                      ∧ current_proxy (scraper st) = current_proxy (snd (connector self))
                      ∧ data self `prefix_of` data (scraper st)
                      ∧ tr `prefix_of` trace st
                      ∧ visited self ⊆ visited (scraper st)
                      ∧ written (trace st) = written tr)).
  - intros st st' _ (Hb & Hd & Hp & Hc & Hdata & Htr & Hv & Hw) Hbody.
    destruct (loop_body_frame _ st st' Hbody) as (Hw' & Htr' & Hdata').
    pose proof (loop_body_visited_mono _ st st' Hbody) as Hv'.
    destruct (loop_body_cases _ st st' Hbody) as (u & rest & Hq & Hcase).
    destruct Hcase as [[_ ->]|(_ & _ & Hb' & Hd' & Hp' & Hc' & _)]; [done|].
    rewrite Hb', Hd', Hp', Hc', Hw'.
    repeat split; try done.
    + by trans (data (scraper st)).
    + by trans (trace st).
    + by trans (visited (scraper st)).
  - unfold crawl_start. simpl. rewrite Hb0, Hd0, Hp0, Hdata0, Hv0. done.
Qed.

(** ** The seed comes first *)

Lemma iterate_fetches_prefix (max_pages : option Z) (session : option string)
    (n : nat) (st : Loop) :
  fetches (trace st) `prefix_of` fetches (trace (iterate n max_pages session st)).
Proof.
  apply (iterate_invariant
           (fun st' => fetches (trace st) `prefix_of` fetches (trace st'))); [|done].
  intros st1 st2 _ Hpre Hbody.
  destruct (loop_body_cases session st1 st2 Hbody) as (u & rest & _ & Hcase).
  destruct Hcase as [[_ ->]|(_ & _ & _ & _ & _ & _ & Hf & _)]; [done|].
  rewrite Hf. by apply prefix_app_r.
Qed.

(** Unless the ceiling forbids any page, the first request of a crawl of
    a new scraper is for the seed, which is in [visited] from then on. *)
Theorem seed_is_requested_first (url : string) (d : Q)
    (proxies_txt : option (list string)) (max_pages : option Z) (n : nat) :
  match max_pages with Some N => (0 < N)%Z | None => True end →
  ∃ others,
    fetches (trace (crawl_upto (S n) (init url d proxies_txt) max_pages [])) = url :: others
    ∧ url ∈ visited (scraper (crawl_upto (S n) (init url d proxies_txt) max_pages [])).
Proof.
  intros Hceil.
  destruct (crawl_start_init url d proxies_txt []) as (Hv & Hq & Htr).
  assert (Hnin : url ∉ visited (scraper (crawl_start (init url d proxies_txt) []))).
  { rewrite Hv. apply not_elem_of_empty. }
  assert (Hcond : loop_cond max_pages (crawl_start (init url d proxies_txt) []) = true).
  { unfold loop_cond. rewrite Hq. destruct max_pages as [N|]; [|done].
    rewrite Hv, size_empty. by apply Z.ltb_lt. }
  destruct (loop_body_fresh_data (fst (connector (init url d proxies_txt)))
              _ url [] Hq Hnin)
    as (st1 & logged & Hst1 & Hv1 & _ & _ & _ & _ & Htr1 & Hf & Hs & _).
  destruct (fresh_trace_counts (trace (crawl_start (init url d proxies_txt) [])) logged
              (fst (connector (init url d proxies_txt))) url Hf Hs) as [Hf1 _].
  rewrite <- Htr1, Htr in Hf1. simpl in Hf1.
  unfold crawl_upto. simpl. rewrite Hcond, Hst1.
  destruct (iterate_fetches_prefix max_pages (fst (connector (init url d proxies_txt))) n st1)
    as [more Hmore].
  rewrite Hf1 in Hmore. exists more. split; [exact Hmore|].
  apply (iterate_visited_mono max_pages (fst (connector (init url d proxies_txt))) n st1).
  rewrite Hv1. by apply elem_of_union_l, elem_of_singleton.
Qed.

(** ** Termination *)

(** A larger bound on the iterations gives the same result. *)
Lemma while_loop_more_fuel (fuel k : nat) (max_pages : option Z)
    (session : option string) (st : Loop) (r : Result Loop) :
  while_loop fuel max_pages session st = Some r →
  while_loop (fuel + k) max_pages session st = Some r.
Proof.
  revert st. induction fuel as [|fuel IH]; intros st; simpl.
  - destruct (loop_cond max_pages st) eqn:Hcond; [discriminate|].
    intros <-. destruct k; simpl; by rewrite Hcond.
  - destruct (loop_cond max_pages st); [|done].
    destruct (loop_body session st) as [st'|e]; [apply IH|done].
Qed.

Lemma while_loop_terminates (N : Z) (session : option string) (m : nat) :
  ∀ st, (Z.to_nat (N - Z.of_nat (size (visited (scraper st)))) <= m)%nat →
        ∃ fuel st', while_loop fuel (Some N) session st = Some (Return st').
Proof.
  induction m as [|m IHm].
  - intros st Hm. exists 0%nat, st. simpl.
    assert (Hcond : loop_cond (Some N) st = false).
    { unfold loop_cond. destruct (queue st); [done|]. apply Z.ltb_ge. lia. }
    by rewrite Hcond.
  - assert (Hlen : ∀ len st, (List.length (queue st) <= len)%nat →
              (Z.to_nat (N - Z.of_nat (size (visited (scraper st)))) <= S m)%nat →
              ∃ fuel st', while_loop fuel (Some N) session st = Some (Return st')).
    { induction len as [|len IHlen]; intros st Hq Hm.
      - exists 0%nat, st. simpl.
        assert (Hcond : loop_cond (Some N) st = false).
        { unfold loop_cond. destruct (queue st); [done|]. simpl in Hq. lia. }
        by rewrite Hcond.
      - destruct (loop_cond (Some N) st) eqn:Hcond.
        + destruct (loop_body_returns (Some N) session st Hcond) as [st' Hbody].
          assert (Hlt : (Z.of_nat (size (visited (scraper st))) < N)%Z).
          { unfold loop_cond in Hcond. destruct (queue st); [discriminate|].
            by apply Z.ltb_lt. }
          destruct (loop_body_cases session st st' Hbody) as (u & rest & Hqu & Hcase).
          assert (Hnext : ∃ fuel st'', while_loop fuel (Some N) session st'
                                     = Some (Return st'')).
          { destruct Hcase as [[_ ->]|(Hnin & Hv & _)].
            - apply IHlen; simpl; [|done]. rewrite Hqu in Hq. simpl in Hq. lia.
            - apply IHm. rewrite Hv.
              rewrite size_union by (by apply disjoint_singleton_l).
              rewrite size_singleton. lia. }
          destruct Hnext as (fuel & st'' & Hrun).
          exists (S fuel), st''.
          by rewrite (while_loop_step fuel (Some N) session st st' Hcond Hbody).
        + exists 0%nat, st. simpl. by rewrite Hcond. }
    intros st Hm. by apply (Hlen (List.length (queue st))).
Qed.

(** With a ceiling, [crawl] ends: some bound on the iterations is
    enough, and every larger bound gives the same final state. *)
Theorem crawl_terminates_under_ceiling (N : Z) (self : AdvancedScraper)
    (tr : list Event) :
  ∃ fuel st, ∀ k, crawl (fuel + k) self (Some N) tr = Some (Return st).
Proof.
  destruct (while_loop_terminates N (fst (connector self))
              (Z.to_nat (N - Z.of_nat (size (visited (scraper (crawl_start self tr))))))
              (crawl_start self tr)) as (fuel & st & Hrun); [lia|].
  exists fuel, st. intros k. unfold crawl. by apply while_loop_more_fuel.
Qed.

(** When [crawl] of a new scraper ends, the queue is empty or there is a
    ceiling and the number of URLs visited is exactly the ceiling (zero
    for a negative one). *)
Theorem crawl_stops_at_ceiling_or_empty_queue (fuel : nat) (url : string) (d : Q)
    (proxies_txt : option (list string)) (max_pages : option Z) (st : Loop) :
  crawl fuel (init url d proxies_txt) max_pages [] = Some (Return st) →
  queue st = []
  ∨ ∃ N, max_pages = Some N
         ∧ Z.of_nat (size (visited (scraper st))) = Z.max 0 N.
Proof.
  intros Hrun. unfold crawl in Hrun.
  apply while_loop_iterate in Hrun as [Hst Hcond]. injection Hst as ->.
  unfold loop_cond in Hcond.
  destruct (queue (iterate fuel max_pages _ _)) as [|u rest] eqn:Hq; [by left|].
  right. destruct max_pages as [N|]; [|discriminate]. exists N. split; [done|].
  apply Z.ltb_ge in Hcond.
  destruct (crawl_start_init url d proxies_txt []) as (Hv & Hq0 & _).
  destruct (Z.le_gt_cases 0 N) as [Hpos|Hneg].
  - assert (Hle : (Z.of_nat (size (visited (scraper
                     (iterate fuel (Some N) (fst (connector (init url d proxies_txt)))
                        (crawl_start (init url d proxies_txt) []))))) <= N)%Z).
    { apply iterate_size. rewrite Hv, size_empty. lia. }
    lia.
  - assert (Hstay : iterate fuel (Some N) (fst (connector (init url d proxies_txt)))
                      (crawl_start (init url d proxies_txt) [])
                    = crawl_start (init url d proxies_txt) []).
    { assert (Hc0 : loop_cond (Some N) (crawl_start (init url d proxies_txt) []) = false).
      { unfold loop_cond. rewrite Hq0, Hv, size_empty. apply Z.ltb_ge. lia. }
      destruct fuel; simpl; [done|]. by rewrite Hc0. }
    rewrite Hstay, Hv, size_empty. lia.
Qed.

(** ** The whole program *)



End MoreFacts.

(** ** What [parse_page] extracts *)

Section Extraction.
Context `{Platform}.

Lemma parse_page_dict_inv (self : AdvancedScraper) (html url : string) (t : nat)
    (d : PageData) :
  parse_page self (Some html) url t = PyDict d →
  Py.truthy html = true
  ∧ pd_links d = extract_links url (soup_a (BeautifulSoup html))
  ∧ pd_emails d = remove_dups (re_findall email_pattern html)
  ∧ pd_phones d = remove_dups (re_findall phone_pattern html)
  ∧ pd_metadata d = extract_metadata (soup_meta (BeautifulSoup html)).
Proof.
  intros Hd. destruct (Py.truthy html) eqn:Hhtml.
  - rewrite (parse_page_record self html url t Hhtml) in Hd. injection Hd as <-. done.
  - unfold parse_page in Hd. rewrite Hhtml in Hd. discriminate.
Qed.

(** *** Stripping *)







(** *** Proxies *)


(** *** Links *)



(** *** E-mail addresses and phone numbers *)

(** The e-mail addresses and the phone numbers of a record are the
    matches of the two patterns in the text, each once. *)
Theorem parse_page_matches_once (self : AdvancedScraper) (html url : string) (t : nat)
    (d : PageData) :
  parse_page self (Some html) url t = PyDict d →
  NoDup (pd_emails d)
  ∧ (∀ e, e ∈ pd_emails d ↔ e ∈ re_findall email_pattern html)
  ∧ NoDup (pd_phones d)
  ∧ (∀ p, p ∈ pd_phones d ↔ p ∈ re_findall phone_pattern html).
Proof.
  intros Hd. apply parse_page_dict_inv in Hd as (_ & _ & -> & -> & _).
  split; [apply NoDup_remove_dups|]. split; [intros e; apply elem_of_remove_dups|].
  split; [apply NoDup_remove_dups|]. intros p. apply elem_of_remove_dups.
Qed.

(** *** Metadata *)

Lemma extract_metadata_snoc (metas : list MetaTag) (m : MetaTag) :
  extract_metadata (metas ++ [m])
  = if Py.truthy (meta_key m) && Py.truthy (default "" (meta_content m))
    then <[meta_key m := default "" (meta_content m)]> (extract_metadata metas)
    else extract_metadata metas.
Proof. unfold extract_metadata. by rewrite fold_left_app. Qed.

Lemma truthy_true (s : string) : Py.truthy s = true ↔ s ≠ "".
Proof. unfold Py.truthy. rewrite negb_true_iff. apply String.eqb_neq. Qed.

(** Every entry of the metadata has a name and a content that are not
    empty, taken from one of the tags. *)
Theorem metadata_entries_come_from_tags (metas : list MetaTag) (k v : string) :
  extract_metadata metas !! k = Some v →
  k ≠ "" ∧ v ≠ ""
  ∧ ∃ m, m ∈ metas ∧ meta_key m = k ∧ meta_content m = Some v.
Proof.
  revert v. induction metas as [|m metas IH] using rev_ind; intros v Hv.
  - unfold extract_metadata in Hv. simpl in Hv. by rewrite lookup_empty in Hv.
  - rewrite extract_metadata_snoc in Hv.
    assert (Hold : extract_metadata metas !! k = Some v →
                   k ≠ "" ∧ v ≠ ""
                   ∧ ∃ m0, m0 ∈ metas ++ [m] ∧ meta_key m0 = k ∧ meta_content m0 = Some v).
    { intros Hv'. destruct (IH v Hv') as (Hk & Hvne & m0 & Hm0 & Hkey & Hc).
      split; [done|]. split; [done|]. exists m0. split; [|done].
      apply elem_of_app. by left. }
    destruct (Py.truthy (meta_key m) && Py.truthy (default "" (meta_content m))) eqn:Huse;
      [|by apply Hold].
    apply andb_true_iff in Huse as [Hkey Hcontent].
    apply truthy_true in Hkey. apply truthy_true in Hcontent.
    destruct (decide (meta_key m = k)) as [<-|Hne].
    + rewrite lookup_insert_eq in Hv. injection Hv as <-.
      split; [done|]. split; [done|]. exists m. split.
      * apply elem_of_app. right. apply list_elem_of_here.
      * split; [done|]. destruct (meta_content m); [done|]. simpl in Hcontent. done.
    + rewrite lookup_insert_ne in Hv by done. by apply Hold.
Qed.

(** A later tag with a name and a content overwrites the entry of that
    name and leaves the others; a tag without content, or whose [name]
    is empty (even when it has a [property]), or with neither [name]
    nor [property], changes nothing. *)
Theorem metadata_later_tag_overwrites (metas : list MetaTag) (m : MetaTag) :
  (∀ v, meta_key m ≠ "" → meta_content m = Some v → v ≠ "" →
        extract_metadata (metas ++ [m]) = <[meta_key m := v]> (extract_metadata metas))
  ∧ (meta_content m = None ∨ meta_content m = Some "" ∨ meta_key m = "" →
     extract_metadata (metas ++ [m]) = extract_metadata metas)
  ∧ (meta_name m = Some "" → meta_key m = "")
  ∧ (meta_name m = None → meta_property m = None → meta_key m = "").
Proof.
  split; [|split; [|split]].
  - intros v Hkey Hcontent Hv. rewrite extract_metadata_snoc, Hcontent. simpl.
    by rewrite (proj2 (truthy_true _) Hkey), (proj2 (truthy_true _) Hv).
  - intros Hskip. rewrite extract_metadata_snoc.
    destruct Hskip as [-> | [-> | ->]]; simpl; [by rewrite andb_false_r..|done].
  - unfold meta_key. by intros ->.
  - unfold meta_key. by intros -> ->.
Qed.

End Extraction.

(** ** More on the proxy rotator *)

(** With a list of [n > 0] proxies and the cursor at [c], the call
    number [i + 1] returns the proxy at [(c + i + 1) mod n], whatever
    [c] is, and leaves the cursor inside the list: no call indexes out
    of range. *)
Theorem rotate_proxy_nth_call (self : AdvancedScraper) (k i : nat) :
  proxies self ≠ [] →
  (i < k)%nat →
  (∃ p, fst (rotate_proxy_n k self) !! i = Some (Some p)
        ∧ proxies self !! ((current_proxy self + S i) mod List.length (proxies self))%nat
          = Some p)
  ∧ (current_proxy (snd (rotate_proxy_n k self)) < List.length (proxies self))%nat
  ∧ proxies (snd (rotate_proxy_n k self)) = proxies self.
Proof.
  intros Hne Hik.
  assert (Hn : (0 < List.length (proxies self))%nat).
  { destruct (proxies self); simpl; [done|lia]. }
  split.
  - revert self k Hne Hik Hn. induction i as [|i IH]; intros self k Hne Hik Hn.
    + destruct k as [|k]; [lia|].
      change (rotate_proxy_n (S k) self)
        with (let '(p, self1) := rotate_proxy self in
              let '(ps, self2) := rotate_proxy_n k self1 in (p :: ps, self2)).
      rewrite (rotate_proxy_nonempty self Hne).
      destruct (rotate_proxy_n k _) as [ps self2]. simpl.
      destruct (lookup_lt_is_Some_2 (proxies self)
                  ((current_proxy self + 1) mod List.length (proxies self))%nat) as [p Hp].
      { apply Nat.mod_upper_bound. lia. }
      exists p. by rewrite Hp.
    + destruct k as [|k]; [lia|].
      change (rotate_proxy_n (S k) self)
        with (let '(p, self1) := rotate_proxy self in
              let '(ps, self2) := rotate_proxy_n k self1 in (p :: ps, self2)).
      rewrite (rotate_proxy_nonempty self Hne).
      set (self1 := set_current_proxy _ self).
      destruct (IH self1 k) as (p & Hp & Hlook); [done|lia|done|].
      destruct (rotate_proxy_n k self1) as [ps self2]. simpl in *.
      exists p. split; [done|]. rewrite <- Hlook. f_equal.
      rewrite Nat.Div0.add_mod_idemp_l. f_equal. lia.
  - destruct k as [|k]; [lia|].
    destruct (rotate_proxy_n_cursor k self Hne) as [-> _]. simpl.
    split; [|done]. apply Nat.mod_upper_bound. lia.
Qed.

(** ** More on the exporter *)

(** When [export_data] returns, the summary it wrote last has a start
    time that is not after its end time; with a single record the two
    are equal. *)
Theorem summary_times_ordered `{Platform} (self : AdvancedScraper) (tr : list Event) :
  fst (export_data self tr) = Return tt →
  ∃ name summary,
    last (snd (export_data self tr)) = Some (EvWrite name (JsonSummary summary))
    ∧ String.leb (start_time summary) (end_time summary) = true
    ∧ (List.length (data self) = 1%nat → start_time summary = end_time summary).
Proof.
  intros Hret.
  assert (Hne : data self ≠ []).
  { intros Hdata. rewrite (export_data_empty self tr Hdata) in Hret. discriminate. }
  destruct (export_data_nonempty self tr Hne) as (earliest & latest & Hmin & Hmax & Hex).
  rewrite Hex. cbn [snd]. eexists _, _. split; [by rewrite last_app|].
  cbn [start_time end_time]. split.
  - apply py_min_spec in Hmin as [_ Hmin]. apply py_max_spec in Hmax as [Hmax _].
    by apply Hmin.
  - intros Hone. destruct (data self) as [|d1 [|d2 ds]]; simpl in Hone; try lia.
    simpl in Hmin, Hmax. congruence.
Qed.

(** * The further properties on the example webs *)

Section MoreExamples.
Import Example.


(** The first iteration of the example crawl. *)
Lemma enqueued_urls_are_unvisited_witness :
  queue (crawl_start fresh []) = seed :: []
  ∧ loop_body None (crawl_start fresh []) = Return (crawl_upto 1 fresh None [])
  ∧ ∃ found, queue (crawl_upto 1 fresh None []) = [] ++ found
             ∧ ∀ c, c ∈ found →
                 c ≠ seed ∧ (c ∉ visited (scraper (crawl_start fresh [])))
                 ∧ (c ∉ visited (scraper (crawl_upto 1 fresh None []))).
Proof.
  assert (Hq : queue (crawl_start fresh []) = seed :: []) by reflexivity.
  assert (Hbody : loop_body None (crawl_start fresh [])
                  = Return (crawl_upto 1 fresh None [])) by (by vm_compute).
  split; [exact Hq|]. split; [exact Hbody|].
  exact (enqueued_urls_are_unvisited None _ _ seed [] Hq Hbody).
Defined.

(** The seed of the blank web. *)
Lemma empty_page_is_dropped_witness :
  queue (crawl_start fresh []) = seed :: []
  ∧ (seed ∉ visited (scraper (crawl_start fresh [])))
  ∧ loop_body (H:=Blank.blank_web) None (crawl_start fresh [])
    = Return {| scraper := set_visited ({[seed]} ∪ visited (scraper (crawl_start fresh [])))
                                       (scraper (crawl_start fresh []));
                queue := [];
                trace := [] ++ [EvLog (InfoCrawling seed); EvGet None seed;
                                EvSleep (delay (scraper (crawl_start fresh [])))] |}.
Proof.
  assert (Hq : queue (crawl_start fresh []) = seed :: []) by reflexivity.
  assert (Hnin : seed ∉ visited (scraper (crawl_start fresh []))).
  { intros Hin. vm_compute in Hin. discriminate. }
  split; [exact Hq|]. split; [exact Hnin|].
  exact (empty_page_is_dropped (H:=Blank.blank_web) None (crawl_start fresh []) seed []
           Hq Hnin eq_refl).
Defined.


(** A ceiling of two pages. *)
Lemma seed_is_requested_first_witness :
  (0 < 2)%Z
  ∧ ∃ others, fetches (trace (crawl_upto 3 fresh (Some 2%Z) [])) = seed :: others
              ∧ seed ∈ visited (scraper (crawl_upto 3 fresh (Some 2%Z) [])).
Proof.
  assert (Hpos : (0 < 2)%Z) by lia.
  split; [exact Hpos|].
  exact (seed_is_requested_first seed 1%Q None (Some 2%Z) 2 Hpos).
Defined.

(** The example crawl without ceiling ends with an empty queue. *)
Lemma crawl_stops_at_ceiling_or_empty_queue_witness :
  crawl 10 fresh None [] = Some (Return (crawl_upto 10 fresh None []))
  ∧ (queue (crawl_upto 10 fresh None []) = []
     ∨ ∃ N, @None Z = Some N
            ∧ Z.of_nat (size (visited (scraper (crawl_upto 10 fresh None [])))) = Z.max 0 N).
Proof.
  assert (Hrun : crawl 10 fresh None [] = Some (Return (crawl_upto 10 fresh None [])))
    by (by vm_compute).
  split; [exact Hrun|].
  exact (crawl_stops_at_ceiling_or_empty_queue 10 seed 1%Q None None _ Hrun).
Defined.




(** A page of the web of contacts: two addresses, one number. *)
Lemma parse_page_matches_once_witness :
  ∃ d, parse_page (H:=Contacts.contacts_web) fresh (Some "<b>") page_b 0 = PyDict d
       ∧ NoDup (pd_emails d)
       ∧ NoDup (pd_phones d).
Proof.
  pose proof (parse_page_record (H:=Contacts.contacts_web) fresh "<b>" page_b 0 eq_refl)
    as Hd.
  destruct (parse_page_matches_once (H:=Contacts.contacts_web) fresh "<b>" page_b 0 _ Hd)
    as (He & _ & Hp & _).
  eexists. split; [exact Hd|]. split; [exact He|exact Hp].
Defined.

(** The author of the seed page. *)
Lemma metadata_entries_come_from_tags_witness :
  extract_metadata (soup_meta (soup_of "<seed>")) !! "author" = Some "me"
  ∧ "author" ≠ "" ∧ "me" ≠ "".
Proof.
  assert (Hlook : extract_metadata (soup_meta (soup_of "<seed>")) !! "author" = Some "me")
    by (by vm_compute).
  split; [exact Hlook|].
  destruct (metadata_entries_come_from_tags _ "author" "me" Hlook) as (Hk & Hv & _).
  split; [exact Hk|exact Hv].
Defined.

(** Two proxies: the third call returns the second proxy again. *)
Lemma rotate_proxy_nth_call_witness :
  proxies (init seed 1%Q two_proxies) ≠ []
  ∧ (2 < 3)%nat
  ∧ ∃ p, fst (rotate_proxy_n 3 (init seed 1%Q two_proxies)) !! 2%nat = Some (Some p)
         ∧ proxies (init seed 1%Q two_proxies)
             !! ((current_proxy (init seed 1%Q two_proxies) + 3)
                 mod List.length (proxies (init seed 1%Q two_proxies)))%nat
           = Some p.
Proof.
  assert (Hne : proxies (init seed 1%Q two_proxies) ≠ []).
  { intros Hnil. vm_compute in Hnil. discriminate. }
  assert (Hlt : (2 < 3)%nat) by lia.
  split; [exact Hne|]. split; [exact Hlt|].
  exact (proj1 (rotate_proxy_nth_call (init seed 1%Q two_proxies) 3 2 Hne Hlt)).
Defined.

(** The summary of two records. *)
Lemma summary_times_ordered_witness :
  fst (export_data two_pages []) = Return tt
  ∧ ∃ name summary,
      last (snd (export_data two_pages [])) = Some (EvWrite name (JsonSummary summary))
      ∧ String.leb (start_time summary) (end_time summary) = true.
Proof.
  assert (Hret : fst (export_data two_pages []) = Return tt) by (by vm_compute).
  split; [exact Hret|].
  destruct (summary_times_ordered two_pages [] Hret) as (name & summary & Hlast & Hle & _).
  exists name, summary. split; [exact Hlast|exact Hle].
Defined.

End MoreExamples.

(** * Crawls that end after the seed *)

Section Seeds.
Context `{Platform}.

Lemma while_loop_one_iteration (fuel : nat) (max_pages : option Z)
    (session : option string) (st st' : Loop) :
  loop_cond max_pages st = true →
  loop_body session st = Return st' →
  queue st' = [] →
  while_loop (S fuel) max_pages session st = Some (Return st').
Proof.
  intros Hcond Hbody Hq.
  rewrite (while_loop_step fuel max_pages session st st' Hcond Hbody).
  assert (Hend : loop_cond max_pages st' = false) by (unfold loop_cond; by rewrite Hq).
  destruct fuel; simpl; by rewrite Hend.
Qed.

Lemma crawl_start_cond (url : string) (d : Q) (proxies_txt : option (list string))
    (max_pages : option Z) :
  match max_pages with Some N => (0 < N)%Z | None => True end →
  loop_cond max_pages (crawl_start (init url d proxies_txt) []) = true.
Proof.
  intros Hceil. destruct (crawl_start_init url d proxies_txt []) as (Hv & Hq & _).
  unfold loop_cond. rewrite Hq. destruct max_pages as [N|]; [|done].
  rewrite Hv, size_empty. by apply Z.ltb_lt.
Qed.

Lemma crawl_start_data (url : string) (d : Q) (proxies_txt : option (list string)) :
  data (scraper (crawl_start (init url d proxies_txt) [])) = [].
Proof.
  unfold crawl_start, connector, rotate_proxy. simpl.
  destruct (load_proxies proxies_txt); done.
Qed.

(** When the request for the seed raises or answers another status than
    200, the crawl ends after that one request: the seed is the only
    URL visited, nothing is recorded, and [main] then raises
    [ValueError] after writing the empty dump and table. *)
Theorem dead_seed_ends_crawl (fuel : nat) (url : string) (d : Q)
    (proxies_txt : option (list string)) (max_pages : option Z) :
  match max_pages with Some N => (0 < N)%Z | None => True end →
  match session_get (fst (connector (init url d proxies_txt))) 1 url with
  | Response status _ => status ≠ 200%Z
  | Raised _ => True
  end →
  (∃ st, crawl (S fuel) (init url d proxies_txt) max_pages [] = Some (Return st)
         ∧ visited (scraper st) = {[url]}
         ∧ data (scraper st) = []
         ∧ queue st = []
         ∧ fetches (trace st) = [url]
         ∧ sleeps (trace st) = 1%nat)
  ∧ (∃ tr, main (S fuel) url d max_pages proxies_txt = Some (Raise ValueError, tr)
           ∧ List.length (written tr) = 2%nat).
Proof.
  intros Hceil Hfail.
  destruct (crawl_start_init url d proxies_txt []) as (Hv & Hq & Htr).
  pose proof (crawl_start_cond url d proxies_txt max_pages Hceil) as Hcond.
  pose proof (crawl_start_data url d proxies_txt) as Hdata.
  assert (Hnin : url ∉ visited (scraper (crawl_start (init url d proxies_txt) []))).
  { rewrite Hv. apply not_elem_of_empty. }
  pose proof (loop_body_fresh (fst (connector (init url d proxies_txt)))
                _ url [] Hq Hnin) as Hbody. cbv zeta in Hbody.
  rewrite Htr in Hbody. simpl app in Hbody.
  set (self1 := set_visited _ _) in Hbody.
  assert (Hnone : fst (fetch_page self1 url (fst (connector (init url d proxies_txt)))
                         [EvLog (InfoCrawling url)]) = None).
  { unfold fetch_page. simpl List.length.
    destruct (session_get _ 1 url) as [status text|e]; [|done].
    destruct (Z.eqb_spec status 200); [contradiction|done]. }
  destruct (fetch_page_trace self1 url (fst (connector (init url d proxies_txt)))
              [EvLog (InfoCrawling url)]) as (logged & Hlog & Hf & Hs).
  rewrite Hnone in Hbody. simpl in Hbody. rewrite Hlog in Hbody.
  assert (Hrun : crawl (S fuel) (init url d proxies_txt) max_pages []
                 = Some (Return {| scraper := self1; queue := [];
                                   trace := ([EvLog (InfoCrawling url)]
                                             ++ EvGet (fst (connector (init url d proxies_txt)))
                                                      url :: logged)
                                            ++ [EvSleep (delay self1)] |})).
  { unfold crawl. by apply (while_loop_one_iteration fuel max_pages _ _ _ Hcond Hbody). }
  assert (Hw : written (([EvLog (InfoCrawling url)]
                         ++ EvGet (fst (connector (init url d proxies_txt))) url :: logged)
                        ++ [EvSleep (delay self1)]) = []).
  { pose proof (fetch_page_written self1 url (fst (connector (init url d proxies_txt)))
                  [EvLog (InfoCrawling url)]) as Hw.
    rewrite Hlog in Hw. rewrite written_app, Hw. done. }
  split.
  - eexists. split; [exact Hrun|]. cbn [scraper queue trace].
    split.
    { change (visited self1)
        with ({[url]} ∪ visited (scraper (crawl_start (init url d proxies_txt) []))).
      rewrite Hv. apply union_empty_r_L. }
    split; [exact Hdata|]. split; [done|]. split.
    + rewrite !fetches_app. simpl.
      change (fetches (EvGet (fst (connector (init url d proxies_txt))) url :: logged))
        with (url :: fetches logged). by rewrite Hf.
    + rewrite !sleeps_app. simpl.
      change (sleeps (EvGet (fst (connector (init url d proxies_txt))) url :: logged))
        with (sleeps logged). by rewrite Hs.
  - unfold main. rewrite Hrun. cbn [scraper trace].
    rewrite (export_data_empty self1 _ Hdata).
    eexists. split; [reflexivity|]. rewrite written_app, Hw. done.
Qed.

(** When the seed answers 200 with a text in which no anchor is found,
    the crawl ends after that one request, with the one record of the
    seed. *)
Theorem leaf_seed_ends_crawl (fuel : nat) (url : string) (d : Q)
    (proxies_txt : option (list string)) (max_pages : option Z) (body : string) :
  match max_pages with Some N => (0 < N)%Z | None => True end →
  session_get (fst (connector (init url d proxies_txt))) 1 url = Response 200 body →
  body ≠ "" →
  soup_a (BeautifulSoup body) = [] →
  ∃ st page_data,
    crawl (S fuel) (init url d proxies_txt) max_pages [] = Some (Return st)
    ∧ visited (scraper st) = {[url]}
    ∧ data (scraper st) = [page_data]
    ∧ pd_url page_data = url
    ∧ pd_links page_data = []
    ∧ queue st = []
    ∧ fetches (trace st) = [url]
    ∧ sleeps (trace st) = 1%nat.
Proof.
  intros Hceil Hnet Hbody Hleaf.
  destruct (crawl_start_init url d proxies_txt []) as (Hv & Hq & Htr).
  pose proof (crawl_start_cond url d proxies_txt max_pages Hceil) as Hcond.
  pose proof (crawl_start_data url d proxies_txt) as Hdata.
  assert (Hnin : url ∉ visited (scraper (crawl_start (init url d proxies_txt) []))).
  { rewrite Hv. apply not_elem_of_empty. }
  assert (Htruthy : Py.truthy body = true) by (by apply truthy_true).
  pose proof (loop_body_fresh (fst (connector (init url d proxies_txt)))
                _ url [] Hq Hnin) as Hstep. cbv zeta in Hstep.
  rewrite Htr in Hstep. simpl app in Hstep.
  set (self1 := set_visited _ _) in Hstep.
  rewrite (fetch_page_ok self1 url _ [EvLog (InfoCrawling url)] body Hnet) in Hstep.
  simpl fst in Hstep. simpl snd in Hstep.
  change (Py.truthy_opt (Some body)) with (Py.truthy body) in Hstep.
  rewrite Htruthy in Hstep.
  rewrite (parse_page_record self1 body url _ Htruthy) in Hstep.
  rewrite Hleaf in Hstep. simpl in Hstep.
  eexists _, _. split.
  - unfold crawl. by apply (while_loop_one_iteration fuel max_pages _ _ _ Hcond Hstep).
  - cbn [scraper queue trace].
    change (visited (set_data _ self1))
      with ({[url]} ∪ visited (scraper (crawl_start (init url d proxies_txt) []))).
    change (data (set_data ?x self1)) with x.
    change (data (snd (connector (init url d proxies_txt))))
      with (data (scraper (crawl_start (init url d proxies_txt) []))).
    rewrite Hv, Hdata. split; [apply union_empty_r_L|]. done.
Qed.

End Seeds.

Section SeedExamples.
Import Example.

(** [/a] as the seed: it answers 404. *)
Lemma dead_seed_ends_crawl_witness :
  ∃ st, crawl 1 (init page_a 1%Q None) None [] = Some (Return st)
        ∧ visited (scraper st) = {[page_a]}
        ∧ data (scraper st) = []
        ∧ queue st = []
        ∧ fetches (trace st) = [page_a]
        ∧ sleeps (trace st) = 1%nat.
Proof.
  apply (dead_seed_ends_crawl 0 page_a 1%Q None None).
  - exact I.
  - vm_compute. lia.
Defined.

(** The seed of the web of leaves. *)
Lemma leaf_seed_ends_crawl_witness :
  "<leaf>" ≠ ""
  ∧ ∃ st page_data,
      crawl (H:=Leaf.leaf_web) 1 (init seed 1%Q None) None [] = Some (Return st)
      ∧ visited (scraper st) = {[seed]}
      ∧ data (scraper st) = [page_data]
      ∧ pd_url page_data = seed
      ∧ pd_links page_data = []
      ∧ queue st = []
      ∧ fetches (trace st) = [seed]
      ∧ sleeps (trace st) = 1%nat.
Proof.
  assert (Hne : "<leaf>" ≠ "") by discriminate.
  split; [exact Hne|].
  exact (leaf_seed_ends_crawl (H:=Leaf.leaf_web) 0 seed 1%Q None None "<leaf>"
           I eq_refl Hne eq_refl).
Defined.

End SeedExamples.
